(** * chatbot/database.py: users, question/answer turns, spam check and
      chat-history windowing

    A shallow embedding of [src/chatbot/database.py].  The relational store
    behind the SQLAlchemy [Engine] is a record of two tables (lists of rows in
    storage order), the two autoincrement sequences and the server clock.
    Every function that opens a [Session] is a computation in a small
    state-and-exception monad over that record; [filter_chat_history], which
    touches no session, only lives in the exception part.

    Timestamps ([datetime]) are integers counting microseconds from
    1970-01-01 00:00:00, so that [timedelta(minutes=1)] is [60000000];
    [datetime.min] and [datetime.max] bound what [datetime] arithmetic can
    yield. *)

From Stdlib Require Import ZArith List Bool String Lia.
From Stdlib Require Import Sorting.Sorted Sorting.Permutation.
Import ListNotations.
Open Scope Z_scope.

(** ** Rows *)

Module User.
Record t : Type := mk
  { id : Z;
    max_id : option Z;
    is_subscribed : bool;
    created_at : Z;
    updated_at : option Z }.
End User.

Module QuestionAnswer.
Record t : Type := mk
  { id : option Z;
    question : string;
    answer : option string;
    confluence_url : option string;
    score : option Z;
    user_id : Z;
    created_at : Z;
    updated_at : option Z;
    stop_point : bool }.
End QuestionAnswer.

(** ** The store behind [Engine]

    [user_seq] is the last value handed out by the autoincrement of
    [user.id], [question_answer_seq] the same for [question_answer.id].
    [server_now] is what [func.now()] yields. *)

Record Engine : Type := mkEngine
  { users : list User.t;
    question_answers : list QuestionAnswer.t;
    user_seq : Z;
    question_answer_seq : Z;
    server_now : Z }.

Definition with_clock (t : Z) (e : Engine) : Engine :=
  mkEngine (users e) (question_answers e) (user_seq e)
           (question_answer_seq e) t.

(** ** Python outcomes *)

Inductive exception : Type :=
| UnboundLocalError (name : string)
| ValueError
| IndexError
| OverflowError
| IntegrityError
| DataError.

Inductive outcome (A : Type) : Type :=
| Returned (a : A)
| Raised (x : exception).
Arguments Returned {A} a.
Arguments Raised {A} x.

Definition obind {A B} (m : outcome A) (k : A -> outcome B) : outcome B :=
  match m with
  | Returned a => k a
  | Raised x => Raised x
  end.

(** A computation inside [with Session(engine) as session:]. *)
Definition Db (A : Type) : Type := Engine -> outcome (A * Engine).

Definition ret {A} (a : A) : Db A := fun e => Returned (a, e).

Definition bind {A B} (m : Db A) (k : A -> Db B) : Db B :=
  fun e => match m e with
           | Returned (a, e') => k a e'
           | Raised x => Raised x
           end.

Definition lift {A} (m : outcome A) : Db A :=
  fun e => match m with
           | Returned a => Returned (a, e)
           | Raised x => Raised x
           end.

Declare Scope db_scope.
Delimit Scope db_scope with db.
Notation "x <- m ;; k" := (bind m (fun x => k))
  (at level 61, m at next level, right associativity) : db_scope.
Notation "x <~ m ;; k" := (obind m (fun x => k))
  (at level 61, m at next level, right associativity) : db_scope.

(** The value a call returns, and the store it leaves. *)
Definition result {A} (o : outcome (A * Engine)) : outcome A :=
  match o with
  | Returned (a, _) => Returned a
  | Raised x => Raised x
  end.

(** ** Python built-ins used by the module *)

(** [l[start:]] *)
Definition slice_from {A} (start : Z) (l : list A) : list A :=
  if start <? 0
  then skipn (Z.to_nat (Z.max 0 (Z.of_nat (List.length l) + start))) l
  else skipn (Z.to_nat start) l.

(** [l[i]] for [i >= 0] *)
Definition getitem {A} (l : list A) (i : nat) : outcome A :=
  match nth_error l i with
  | Some a => Returned a
  | None => Raised IndexError
  end.

(** [len(l)] *)
Definition len {A} (l : list A) : Z := Z.of_nat (List.length l).

(** [max(iterable)] *)
Definition max (l : list Z) : outcome Z :=
  match l with
  | [] => Raised ValueError
  | x :: xs => Returned (fold_left Z.max xs x)
  end.

(** [enumerate(l)] counts from 0; [enumerate_from i l] counts from [i]. *)
Fixpoint enumerate_from {A} (i : Z) (l : list A) : list (Z * A) :=
  match l with
  | [] => []
  | x :: xs => (i, x) :: enumerate_from (i + 1) xs
  end.

(** Reading a local variable that may not have been assigned. *)
Definition read_local {A} (name : string) (v : option A) : outcome A :=
  match v with
  | Some a => Returned a
  | None => Raised (UnboundLocalError name)
  end.

(** [qa.answer != s] and [qa.answer == s] for the empty string [s], on a
    [str | None]: [None] differs from every string. *)
Definition answer_ne_empty (qa : QuestionAnswer.t) : bool :=
  match QuestionAnswer.answer qa with
  | Some s => negb (String.eqb s EmptyString)
  | None => true
  end.

Definition answer_eq_empty (qa : QuestionAnswer.t) : bool :=
  match QuestionAnswer.answer qa with
  | Some s => String.eqb s EmptyString
  | None => false
  end.

Definition timedelta_minutes (m : Z) : Z := m * 60000000.

(** [datetime.min] and [datetime.max]: 0001-01-01 00:00:00 and
    9999-12-31 23:59:59.999999. *)
Definition datetime_min : Z := -62135596800000000.
Definition datetime_max : Z := 253402300799999999.

(** [timedelta(minutes=m)] normalises to days, seconds and microseconds and
    raises [OverflowError] when the days, [m // 1440], leave
    [-999999999 .. 999999999]. *)
Definition timedelta_of_minutes (m : Z) : outcome Z :=
  if (-999999999 <=? m / 1440) && (m / 1440 <=? 999999999)
  then Returned (timedelta_minutes m)
  else Raised OverflowError.

(** [t - d] for a [datetime] and a [timedelta]: [OverflowError] when the
    difference is no [datetime]. *)
Definition datetime_sub (t d : Z) : outcome Z :=
  if (datetime_min <=? t - d) && (t - d <=? datetime_max)
  then Returned (t - d)
  else Raised OverflowError.

(** ** filter_chat_history *)

(** [[i for i, qa in enumerate(history) if qa.stop_point]], the count
    starting at [i] *)
Definition stop_indices_from (i : Z) (history : list QuestionAnswer.t)
  : list Z :=
  map fst (filter (fun p => QuestionAnswer.stop_point (snd p))
                  (enumerate_from i history)).

Definition last_stop_idx (history : list QuestionAnswer.t) : Z :=
  last (stop_indices_from 0 history) (-1).

Definition trimmed_history (history : list QuestionAnswer.t)
  : list QuestionAnswer.t :=
  if negb (last_stop_idx history =? -1)
  then slice_from (last_stop_idx history + 1) history
  else history.

Definition filter_chat_history (history : list QuestionAnswer.t)
  : outcome (list QuestionAnswer.t * list QuestionAnswer.t) :=
  match history with
  | [] => Returned ([], [])
  | _ :: _ =>
      let trimmed := trimmed_history history in
      let pairs := filter answer_ne_empty trimmed in
      let unanswered := filter answer_eq_empty trimmed in
      match pairs with
      | [] => Returned ([], unanswered)
      | _ :: _ =>
          (last_answer_time <~ max (map QuestionAnswer.created_at pairs) ;;
           Returned
             (pairs,
              filter (fun qa =>
                        last_answer_time <? QuestionAnswer.created_at qa)
                     unanswered))%db
      end
  end.

(** ** Queries and writes of a session *)

(** [ORDER BY created_at]: a stable insertion sort, [before a b] telling that
    a row created at [a] may stand before one created at [b].  SQL leaves the
    order of rows with equal keys open; here they stay in storage order. *)
Section OrderBy.

Variable before : Z -> Z -> bool.

Fixpoint insert_by (x : QuestionAnswer.t) (l : list QuestionAnswer.t)
  : list QuestionAnswer.t :=
  match l with
  | [] => [x]
  | y :: ys =>
      if before (QuestionAnswer.created_at x) (QuestionAnswer.created_at y)
      then x :: y :: ys
      else y :: insert_by x ys
  end.

Definition order_by (l : list QuestionAnswer.t) : list QuestionAnswer.t :=
  fold_right insert_by [] l.

End OrderBy.

Definition order_by_created_at_asc : list QuestionAnswer.t -> list QuestionAnswer.t :=
  order_by Z.leb.

Definition order_by_created_at_desc : list QuestionAnswer.t -> list QuestionAnswer.t :=
  order_by (fun a b => b <=? a).

Definition max_id_is (m : Z) (u : User.t) : bool :=
  match User.max_id u with
  | Some m' => m' =? m
  | None => false
  end.

(** [session.scalar(select(User).where(User.max_id == max_id))] *)
Definition scalar_user_where_max_id (m : Z) : Db (option User.t) :=
  fun e => Returned (find (max_id_is m) (users e), e).

(** [session.scalars(select(User).where(User.id == user_id)).first()], also
    [session.query(User).get(user_id)] *)
Definition first_user_where_id (user_id : Z) : Db (option User.t) :=
  fun e => Returned (find (fun u => User.id u =? user_id) (users e), e).

(** [session.add(user); session.commit()] for a new [User]: the row gets the
    next id and the server's time. *)
Definition add_commit_user (max_id : option Z) (is_subscribed : bool)
  : Db User.t :=
  fun e =>
    let user := User.mk (user_seq e + 1) max_id is_subscribed
                        (server_now e) None in
    Returned (user,
              mkEngine (users e ++ [user]) (question_answers e)
                       (user_seq e + 1) (question_answer_seq e)
                       (server_now e)).

(** [user.is_subscribed = v; session.commit()]: an UPDATE of the row with the
    user's primary key; [onupdate=func.now()] stamps [updated_at]. *)
Definition set_is_subscribed (v : bool) (now : Z) (target : Z) (u : User.t)
  : User.t :=
  if User.id u =? target
  then User.mk (User.id u) (User.max_id u) v (User.created_at u) (Some now)
  else u.

Definition commit_is_subscribed (user : User.t) (v : bool) : Db User.t :=
  fun e =>
    let user' := set_is_subscribed v (server_now e) (User.id user) user in
    Returned (user',
              mkEngine (map (set_is_subscribed v (server_now e)
                                               (User.id user))
                            (users e))
                       (question_answers e) (user_seq e)
                       (question_answer_seq e) (server_now e)).

(** [user.question_answers], the relationship ordered by
    [desc(QuestionAnswer.created_at)] *)
Definition relationship_question_answers (user : User.t)
  : Db (list QuestionAnswer.t) :=
  fun e =>
    Returned (order_by_created_at_desc
                (filter (fun qa => QuestionAnswer.user_id qa =? User.id user)
                        (question_answers e)),
              e).

(** [session.add(qa); session.flush(); session.refresh(qa); session.commit()]
    for a new [QuestionAnswer].  The INSERT of the flush is refused with
    [IntegrityError] when [user_id] references no user
    ([ForeignKey("user.id")]); nothing is stored then.  Otherwise the row
    gets the next id and the server's time, and [stop_point] takes its
    default. *)
Definition add_flush_refresh_commit
  (question : string) (answer : option string)
  (confluence_url : option string) (user_id : Z) : Db QuestionAnswer.t :=
  fun e =>
    if existsb (fun u => User.id u =? user_id) (users e)
    then
      let qa := QuestionAnswer.mk (Some (question_answer_seq e + 1)) question
                                  answer confluence_url None user_id
                                  (server_now e) None false in
      Returned (qa,
                mkEngine (users e) (question_answers e ++ [qa]) (user_seq e)
                         (question_answer_seq e + 1) (server_now e))
    else Raised IntegrityError.

(** [session.query(QuestionAnswer).filter(user_id == .., created_at >= ..)
      .order_by(created_at.asc()).all()] *)
Definition query_recent_qa (user : User.t) (cutoff_time : Z)
  : Db (list QuestionAnswer.t) :=
  fun e =>
    Returned (order_by_created_at_asc
                (filter (fun qa =>
                           (QuestionAnswer.user_id qa =? User.id user)
                           && (cutoff_time <=? QuestionAnswer.created_at qa))
                        (question_answers e)),
              e).

(** ** The functions of the module

    [now] stands for [datetime.now()], the clock of the calling process. *)

Section Functions.

Variable now : Z.

Local Open Scope db_scope.

Definition add_user (engine : Engine) (max_id : option Z)
  : outcome ((bool * Z) * Engine) :=
  (user_var <- match max_id with
               | Some m => (u <- scalar_user_where_max_id m ;;
                            ret (Some u))
               | None => ret None
               end ;;
   user <- lift (read_local "user" user_var) ;;
   match user with
   | None =>
       user <- add_commit_user max_id true ;;
       ret (true, User.id user)
   | Some user => ret (false, User.id user)
   end) engine.

Definition subscribe_user (engine : Engine) (user_id : Z)
  : outcome (bool * Engine) :=
  (user <- first_user_where_id user_id ;;
   match user with
   | None => ret false
   | Some user =>
       user <- commit_is_subscribed user (negb (User.is_subscribed user)) ;;
       ret (User.is_subscribed user)
   end) engine.

Definition check_spam (engine : Engine) (user_id : Z)
  : outcome (bool * Engine) :=
  (user <- first_user_where_id user_id ;;
   match user with
   | None => ret false
   | Some user =>
       qas <- relationship_question_answers user ;;
       if len qas >? 5
       then
         let minute_ago := now - timedelta_minutes 1 in
         fifth_message <- lift (getitem qas 4) ;;
         ret (minute_ago <? QuestionAnswer.created_at fifth_message)
       else ret false
   end) engine.

Definition add_question_answer
  (engine : Engine) (question answer : string)
  (confluence_url : option string) (user_id : Z)
  : outcome (Z * Engine) :=
  (question_answer <-
     add_flush_refresh_commit question (Some answer) confluence_url
                              user_id ;;
   match QuestionAnswer.id question_answer with
   | None => ret 0
   | Some i => ret i
   end) engine.

Definition get_history_of_chat
  (engine : Engine) (user_id : Z) (time : Z) (limit_pairs : Z)
  : outcome (list QuestionAnswer.t * Engine) :=
  (user <- first_user_where_id user_id ;;
   match user with
   | None => ret []
   | Some user =>
       delta <- lift (timedelta_of_minutes time) ;;
       cutoff_time <- lift (datetime_sub now delta) ;;
       recent_qa <- query_recent_qa user cutoff_time ;;
       let full_pairs := filter answer_ne_empty recent_qa in
       let full_pairs :=
         if len full_pairs >? limit_pairs
         then slice_from (- limit_pairs) full_pairs
         else full_pairs in
       let unanswered := filter answer_eq_empty recent_qa in
       ret (full_pairs ++ unanswered)
   end) engine.

End Functions.

(** ** The other functions of the module: get_user_id, rate_answer and
    set_stop_point *)

(** [QuestionAnswer.id == i] in a WHERE clause; a row without id compares
    equal to nothing. *)
Definition id_is (i : Z) (qa : QuestionAnswer.t) : bool :=
  match QuestionAnswer.id qa with
  | Some j => j =? i
  | None => false
  end.

(** [session.scalars(select(QuestionAnswer)
      .where(QuestionAnswer.id == question_answer_id)).first()] *)
Definition first_question_answer_where_id (question_answer_id : Z)
  : Db (option QuestionAnswer.t) :=
  fun e => Returned (find (id_is question_answer_id) (question_answers e), e).

(** [session.scalars(select(QuestionAnswer)
      .where(QuestionAnswer.user_id == user_id)
      .order_by(QuestionAnswer.created_at.desc())).first()] *)
Definition first_question_answer_where_user_id_desc (user_id : Z)
  : Db (option QuestionAnswer.t) :=
  fun e =>
    Returned (hd_error
                (order_by_created_at_desc
                   (filter (fun qa => QuestionAnswer.user_id qa =? user_id)
                           (question_answers e))),
              e).

(** The row an UPDATE of a loaded object addresses: the one with the
    object's primary key. *)
Definition same_row (target : option Z) (qa : QuestionAnswer.t) : bool :=
  match target with
  | Some i => id_is i qa
  | None => false
  end.

Definition set_score (v : option Z) (now : Z) (target : option Z)
  (qa : QuestionAnswer.t) : QuestionAnswer.t :=
  if same_row target qa
  then QuestionAnswer.mk (QuestionAnswer.id qa) (QuestionAnswer.question qa)
         (QuestionAnswer.answer qa) (QuestionAnswer.confluence_url qa) v
         (QuestionAnswer.user_id qa) (QuestionAnswer.created_at qa)
         (Some now) (QuestionAnswer.stop_point qa)
  else qa.

Definition set_stop_point_field (v : bool) (now : Z) (target : option Z)
  (qa : QuestionAnswer.t) : QuestionAnswer.t :=
  if same_row target qa
  then QuestionAnswer.mk (QuestionAnswer.id qa) (QuestionAnswer.question qa)
         (QuestionAnswer.answer qa) (QuestionAnswer.confluence_url qa)
         (QuestionAnswer.score qa) (QuestionAnswer.user_id qa)
         (QuestionAnswer.created_at qa) (Some now) v
  else qa.

Definition score_is (v : Z) (qa : QuestionAnswer.t) : bool :=
  match QuestionAnswer.score qa with
  | Some w => w =? v
  | None => false
  end.

(** [score] is an INTEGER column. *)
Definition fits_integer (v : Z) : bool :=
  (-2147483648 <=? v) && (v <=? 2147483647).

(** [question_answer.score = score; session.commit()].  The session writes
    an attribute only when its value differs from the loaded one; the UPDATE
    it then emits also stamps [updated_at] ([onupdate=func.now()]), and is
    refused with [DataError] when the score does not fit the column. *)
Definition commit_score (question_answer : QuestionAnswer.t) (score : Z)
  : Db unit :=
  fun e =>
    if score_is score question_answer
    then Returned (tt, e)
    else if fits_integer score
    then
      Returned (tt,
                mkEngine (users e)
                         (map (set_score (Some score) (server_now e)
                                         (QuestionAnswer.id question_answer))
                              (question_answers e))
                         (user_seq e) (question_answer_seq e)
                         (server_now e))
    else Raised DataError.

(** [last_message.stop_point = valbool; session.commit()], written under the
    same rule. *)
Definition commit_stop_point (last_message : QuestionAnswer.t)
  (valbool : bool) : Db unit :=
  fun e =>
    if Bool.eqb (QuestionAnswer.stop_point last_message) valbool
    then Returned (tt, e)
    else
      Returned (tt,
                mkEngine (users e)
                         (map (set_stop_point_field
                                 valbool (server_now e)
                                 (QuestionAnswer.id last_message))
                              (question_answers e))
                         (user_seq e) (question_answer_seq e)
                         (server_now e)).

Definition get_user_id (engine : Engine) (max_id : option Z)
  : outcome (option Z * Engine) :=
  (user_var <- match max_id with
               | Some m => (u <- scalar_user_where_max_id m ;;
                            ret (Some u))
               | None => ret None
               end ;;
   user <- lift (read_local "user" user_var) ;;
   ret (match user with
        | Some user => Some (User.id user)
        | None => None
        end))%db engine.

Definition rate_answer (engine : Engine) (question_answer_id : Z) (score : Z)
  : outcome (bool * Engine) :=
  (question_answer <- first_question_answer_where_id question_answer_id ;;
   match question_answer with
   | None => ret false
   | Some question_answer =>
       _ <- commit_score question_answer score ;;
       ret true
   end)%db engine.

Definition set_stop_point (engine : Engine) (user_id : Z) (valbool : bool)
  : outcome (unit * Engine) :=
  (last_message <- first_question_answer_where_user_id_desc user_id ;;
   match last_message with
   | None => ret tt
   | Some last_message => commit_stop_point last_message valbool
   end)%db engine.

(** * Vocabulary of the properties and sample stores *)

(** ** Histories *)

Definition no_stop_point (l : list QuestionAnswer.t) : Prop :=
  Forall (fun qa => QuestionAnswer.stop_point qa = false) l.

(** [suffix] is what follows the last turn of [history] that carries
    [stop_point]; the whole history when no turn carries it. *)
Definition after_last_stop_point (history suffix : list QuestionAnswer.t)
  : Prop :=
  no_stop_point suffix /\
  (history = suffix \/
   exists before stop,
     history = before ++ stop :: suffix /\
     QuestionAnswer.stop_point stop = true).

Definition is_maximum (m : Z) (l : list Z) : Prop :=
  In m l /\ Forall (fun x => x <= m) l.

Definition most_recent_first (l : list QuestionAnswer.t) : Prop :=
  StronglySorted
    (fun a b => QuestionAnswer.created_at b <= QuestionAnswer.created_at a) l.

Definition oldest_first (l : list QuestionAnswer.t) : Prop :=
  StronglySorted
    (fun a b => QuestionAnswer.created_at a <= QuestionAnswer.created_at b) l.

(** What the specification calls answered and unanswered: a non-empty
    answer, and an answer that is empty or absent. *)
Definition is_answered (qa : QuestionAnswer.t) : bool :=
  match QuestionAnswer.answer qa with
  | Some s => negb (String.eqb s EmptyString)
  | None => false
  end.

Definition is_unanswered (qa : QuestionAnswer.t) : bool :=
  match QuestionAnswer.answer qa with
  | Some s => String.eqb s EmptyString
  | None => true
  end.

(** ** Stores *)

Definition user_with_id (user_id : Z) (e : Engine) : option User.t :=
  find (fun u => User.id u =? user_id) (users e).

(** The turns a user owns, in storage order. *)
Definition turns_of (e : Engine) (user : User.t) : list QuestionAnswer.t :=
  filter (fun qa => QuestionAnswer.user_id qa =? User.id user)
         (question_answers e).

(** [t] is the [created_at] of the turn at position [n] (from 0) when the
    turns are arranged from the most recent to the oldest. *)
Definition created_at_by_recency
  (n : nat) (turns : list QuestionAnswer.t) (t : Z) : Prop :=
  exists sorted,
    Permutation sorted turns /\ most_recent_first sorted /\
    nth_error (map QuestionAnswer.created_at sorted) n = Some t.

Definition user_with_max_id (m : Z) (e : Engine) : option User.t :=
  find (max_id_is m) (users e).

(** The rows of the user created at or after [now - time] minutes, oldest
    first: what the query of [get_history_of_chat] loads. *)
Definition recent_qa (now : Z) (e : Engine) (user : User.t) (time : Z)
  : list QuestionAnswer.t :=
  order_by_created_at_asc
    (filter (fun qa =>
               (QuestionAnswer.user_id qa =? User.id user)
               && (now - timedelta_minutes time
                   <=? QuestionAnswer.created_at qa))
            (question_answers e)).

(** [now - timedelta(minutes=time)] can be computed: the minutes make a
    [timedelta] and the difference is a [datetime]. *)
Definition cutoff_representable (now time : Z) : Prop :=
  -999999999 <= time / 1440 <= 999999999 /\
  datetime_min <= now - time * 60000000 <= datetime_max.

(** The last [n] elements of a list. *)
Definition most_recent {A} (n : nat) (l : list A) : list A :=
  skipn (List.length l - n) l.

(** ** Sample stores

    One user, with id 1; the calls below are made 100 seconds after the
    epoch. *)

Definition sample_user : User.t := User.mk 1 (Some 4711) true 0 None.

Definition spam_turn (t : Z) : QuestionAnswer.t :=
  QuestionAnswer.mk (Some t) "question" (Some "answer"%string) None None 1 t
                    None false.

(** Six turns 65, 50, 40, 30, 20 and 5 seconds before the call. *)
Definition spam_engine : Engine :=
  mkEngine [sample_user]
           (map spam_turn [35000000; 50000000; 60000000; 70000000;
                           80000000; 95000000])
           1 6 100000000.

Definition empty_engine : Engine := mkEngine [] [] 0 0 0.

(** A window with four answered turns and one open question. *)
Definition answered_turn (i t : Z) : QuestionAnswer.t :=
  QuestionAnswer.mk (Some i) "question" (Some "answer"%string) None None 1 t
                    None false.

Definition open_turn (i t : Z) : QuestionAnswer.t :=
  QuestionAnswer.mk (Some i) "question" (Some EmptyString) None None 1 t
                    None false.

Definition window_engine : Engine :=
  mkEngine [sample_user]
           [answered_turn 1 10000000; answered_turn 2 20000000;
            answered_turn 3 30000000; answered_turn 4 40000000;
            open_turn 5 50000000]
           1 5 100000000.

(** A turn whose answer is absent, after one answered turn. *)
Definition absent_turn (i t : Z) : QuestionAnswer.t :=
  QuestionAnswer.mk (Some i) "question" None None None 1 t None false.

Definition absent_engine : Engine :=
  mkEngine [sample_user]
           [answered_turn 1 10000000; absent_turn 2 20000000]
           1 2 100000000.

(** The store after [add_user] and [add_question_answer] on the empty
    store, at time 0. *)
Definition two_calls_engine : Engine :=
  mkEngine [User.mk 1 (Some 4711) true 0 None]
           [QuestionAnswer.mk (Some 1) "question" (Some "answer"%string)
                              None None 1 0 None false]
           1 1 0.

(** An open question followed by an answered turn. *)
Definition open_then_answered_engine : Engine :=
  mkEngine [sample_user]
           [open_turn 1 10000000; answered_turn 2 20000000]
           1 2 100000000.

(** ** Well-formed stores and the steps between stores *)

Definition present_max_ids (l : list User.t) : list Z :=
  flat_map (fun u => match User.max_id u with
                     | Some m => [m]
                     | None => []
                     end) l.

(** What the schema promises of the two tables: primary keys are present,
    unique and were handed out by the sequences, and the external ids that
    are present are unique ([unique=True] on [max_id]). *)
Definition well_formed (e : Engine) : Prop :=
  NoDup (map User.id (users e)) /\
  Forall (fun u => User.id u <= user_seq e) (users e) /\
  NoDup (present_max_ids (users e)) /\
  NoDup (map QuestionAnswer.id (question_answers e)) /\
  Forall (fun qa =>
            exists i, QuestionAnswer.id qa = Some i /\
                      i <= question_answer_seq e)
         (question_answers e).

(** One call of a function of the module that returns, or the passing of
    time on the server. *)
Inductive step : Engine -> Engine -> Prop :=
| step_clock (t : Z) (e : Engine) :
    step e (with_clock t e)
| step_add_user e max_id r e' :
    add_user e max_id = Returned (r, e') -> step e e'
| step_get_user_id e max_id r e' :
    get_user_id e max_id = Returned (r, e') -> step e e'
| step_subscribe_user e user_id r e' :
    subscribe_user e user_id = Returned (r, e') -> step e e'
| step_check_spam now e user_id r e' :
    check_spam now e user_id = Returned (r, e') -> step e e'
| step_add_question_answer e question answer confluence_url user_id r e' :
    add_question_answer e question answer confluence_url user_id
    = Returned (r, e') ->
    step e e'
| step_rate_answer e question_answer_id score r e' :
    rate_answer e question_answer_id score = Returned (r, e') -> step e e'
| step_get_history_of_chat now e user_id time limit_pairs r e' :
    get_history_of_chat now e user_id time limit_pairs = Returned (r, e') ->
    step e e'
| step_set_stop_point e user_id valbool r e' :
    set_stop_point e user_id valbool = Returned (r, e') -> step e e'.

(** The stores that calls of the module build from the empty store. *)
Inductive reachable : Engine -> Prop :=
| reachable_empty : reachable empty_engine
| reachable_step e e' : reachable e -> step e e' -> reachable e'.

(** ** Recent turns *)

(** The turn was created later than a minute before [now]. *)
Definition younger_than_a_minute (now : Z) (qa : QuestionAnswer.t) : bool :=
  now - timedelta_minutes 1 <? QuestionAnswer.created_at qa.

(** * Properties *)

(** ** Generic facts on lists and the built-ins *)

Lemma filter_filter_andb {A} (f g : A -> bool) (l : list A) :
  filter f (filter g l) = filter (fun x => g x && f x) l.
Proof.
  induction l as [|x l IH]; simpl; [reflexivity|].
  destruct (g x); simpl; [destruct (f x)|]; now rewrite IH.
Qed.

Lemma enumerate_from_app {A} (l1 l2 : list A) : forall i,
  enumerate_from i (l1 ++ l2)
  = enumerate_from i l1 ++ enumerate_from (i + len l1) l2.
Proof.
  unfold len.
  induction l1 as [|x l1 IH]; intros i; cbn [List.length app enumerate_from].
  - f_equal. lia.
  - rewrite IH. do 3 f_equal. lia.
Qed.

Lemma slice_from_app_length {A} (l1 l2 : list A) :
  slice_from (len l1) (l1 ++ l2) = l2.
Proof.
  unfold slice_from, len.
  destruct (Z.ltb_spec (Z.of_nat (List.length l1)) 0) as [H|_]; [lia|].
  rewrite Nat2Z.id, skipn_app, skipn_all, Nat.sub_diag.
  reflexivity.
Qed.

Lemma fold_left_max_init (xs : list Z) : forall x,
  x <= fold_left Z.max xs x.
Proof.
  induction xs as [|y xs IH]; intros x; simpl; [lia|].
  specialize (IH (Z.max x y)). lia.
Qed.

Lemma fold_left_max_bound (xs : list Z) : forall x,
  Forall (fun y => y <= fold_left Z.max xs x) xs.
Proof.
  induction xs as [|y xs IH]; intros x; simpl; constructor.
  - pose proof (fold_left_max_init xs (Z.max x y)). lia.
  - apply IH.
Qed.

Lemma fold_left_max_in (xs : list Z) : forall x,
  In (fold_left Z.max xs x) (x :: xs).
Proof.
  induction xs as [|y xs IH]; intros x; simpl; [now left|].
  destruct (IH (Z.max x y)) as [H|H].
  - destruct (Z.max_spec x y) as [[_ E]|[_ E]]; rewrite E in *; auto.
  - auto.
Qed.

(** ** Trimming at the last stop point *)

Lemma max_is_maximum (l : list Z) :
  l <> [] -> exists m, max l = Returned m /\ is_maximum m l.
Proof.
  destruct l as [|x xs]; [congruence|]. intros _.
  exists (fold_left Z.max xs x). split; [reflexivity|]. split.
  - apply fold_left_max_in.
  - constructor; [apply fold_left_max_init | apply fold_left_max_bound].
Qed.

Lemma stop_indices_from_app (l1 l2 : list QuestionAnswer.t) (i : Z) :
  stop_indices_from i (l1 ++ l2)
  = stop_indices_from i l1 ++ stop_indices_from (i + len l1) l2.
Proof.
  unfold stop_indices_from.
  now rewrite enumerate_from_app, filter_app, map_app.
Qed.

Lemma stop_indices_from_no_stop (l : list QuestionAnswer.t) :
  no_stop_point l -> forall i, stop_indices_from i l = [].
Proof.
  unfold stop_indices_from.
  induction 1 as [|x l Hx _ IH]; intros i; simpl; [reflexivity|].
  rewrite Hx. apply IH.
Qed.

Lemma last_stop_idx_split (before suffix : list QuestionAnswer.t) stop :
  QuestionAnswer.stop_point stop = true ->
  no_stop_point suffix ->
  last_stop_idx (before ++ stop :: suffix) = len before.
Proof.
  intros Hstop Hsuf. unfold last_stop_idx.
  rewrite stop_indices_from_app.
  change (stop :: suffix) with ([stop] ++ suffix).
  rewrite stop_indices_from_app, (stop_indices_from_no_stop _ Hsuf).
  assert (stop_indices_from (0 + len before) [stop] = [len before]) as ->
    by (unfold stop_indices_from; simpl; now rewrite Hstop).
  rewrite app_nil_r. apply last_last.
Qed.

Lemma trimmed_history_split (before suffix : list QuestionAnswer.t) stop :
  QuestionAnswer.stop_point stop = true ->
  no_stop_point suffix ->
  trimmed_history (before ++ stop :: suffix) = suffix.
Proof.
  intros Hstop Hsuf. unfold trimmed_history.
  rewrite (last_stop_idx_split _ _ _ Hstop Hsuf).
  assert (0 <= len before) as Hlen by (unfold len; lia).
  destruct (Z.eqb_spec (len before) (-1)) as [E|_]; [lia|]. simpl.
  replace (len before + 1) with (len (before ++ [stop]))
    by (unfold len; rewrite length_app; simpl; lia).
  replace (before ++ stop :: suffix) with ((before ++ [stop]) ++ suffix)
    by (now rewrite <- app_assoc).
  apply slice_from_app_length.
Qed.

Lemma trimmed_history_no_stop (history : list QuestionAnswer.t) :
  no_stop_point history -> trimmed_history history = history.
Proof.
  intros H. unfold trimmed_history, last_stop_idx.
  now rewrite (stop_indices_from_no_stop _ H).
Qed.

Lemma last_stop_point_split (history : list QuestionAnswer.t) :
  no_stop_point history \/
  exists before stop suffix,
    history = before ++ stop :: suffix /\
    QuestionAnswer.stop_point stop = true /\
    no_stop_point suffix.
Proof.
  induction history as [|x l IH].
  - left. constructor.
  - destruct IH as [Hnone|(before & stop & suffix & -> & Hs & Hsuf)].
    + destruct (QuestionAnswer.stop_point x) eqn:Hx.
      * right. exists [], x, l. auto.
      * left. constructor; assumption.
    + right. exists (x :: before), stop, suffix. auto.
Qed.

Lemma trimmed_history_after_last_stop_point (history : list QuestionAnswer.t) :
  after_last_stop_point history (trimmed_history history).
Proof.
  destruct (last_stop_point_split history)
    as [Hnone|(before & stop & suffix & -> & Hs & Hsuf)].
  - rewrite (trimmed_history_no_stop _ Hnone). split; auto.
  - rewrite (trimmed_history_split _ _ _ Hs Hsuf). split; [assumption|].
    right. exists before, stop. auto.
Qed.

(** The suffix after the last stop point is unique. *)
Lemma after_last_stop_point_unique (history s1 s2 : list QuestionAnswer.t) :
  after_last_stop_point history s1 ->
  after_last_stop_point history s2 -> s1 = s2.
Proof.
  intros H1 H2.
  assert (forall s, after_last_stop_point history s ->
                    s = trimmed_history history) as Huniq.
  { intros s [Hs [->|(before & stop & -> & Hstop)]].
    - symmetry. now apply trimmed_history_no_stop.
    - symmetry. now apply trimmed_history_split. }
  rewrite (Huniq _ H1), (Huniq _ H2). reflexivity.
Qed.

(** ** filter_chat_history *)

Lemma filter_chat_history_trimmed (history : list QuestionAnswer.t) :
  let trimmed := trimmed_history history in
  let pairs := filter answer_ne_empty trimmed in
  exists unanswered,
    filter_chat_history history = Returned (pairs, unanswered) /\
    (pairs = [] -> unanswered = filter answer_eq_empty trimmed) /\
    (pairs <> [] ->
     exists last_answer_time,
       is_maximum last_answer_time (map QuestionAnswer.created_at pairs) /\
       unanswered
       = filter (fun qa =>
                   answer_eq_empty qa
                   && (last_answer_time <? QuestionAnswer.created_at qa))
                trimmed).
Proof.
  intros trimmed pairs.
  destruct history as [|h history'] eqn:Hh.
  - exists []. subst trimmed pairs. rewrite (trimmed_history_no_stop []).
    + simpl. repeat split; congruence.
    + constructor.
  - unfold filter_chat_history. fold trimmed. fold pairs.
    destruct pairs as [|p ps] eqn:Hp.
    + eexists. repeat split; congruence.
    + destruct (max_is_maximum (map QuestionAnswer.created_at (p :: ps)))
        as (m & Hmax & Hm); [discriminate|].
      rewrite Hmax. simpl obind. eexists. split; [reflexivity|].
      split; [discriminate|]. intros _. exists m. split; [exact Hm|].
      apply filter_filter_andb.
Qed.

(** [filter_chat_history] in terms of its own two tests on the answer.  It
    always returns.  What it returns is computed from the suffix of the
    history that follows the last turn with [stop_point]: the first component
    is the turns of the suffix that pass [answer_ne_empty]; when that
    component is empty the second one is all the turns of the suffix that
    pass [answer_eq_empty], otherwise it is those of them whose [created_at]
    is strictly greater than the maximum [created_at] of the first
    component. *)
Lemma filter_chat_history_suffix (history : list QuestionAnswer.t) :
  (exists suffix pairs unanswered,
     after_last_stop_point history suffix /\
     filter_chat_history history = Returned (pairs, unanswered) /\
     pairs = filter answer_ne_empty suffix /\
     (pairs = [] -> unanswered = filter answer_eq_empty suffix) /\
     (pairs <> [] ->
      exists last_answer_time,
        is_maximum last_answer_time (map QuestionAnswer.created_at pairs) /\
        unanswered
        = filter (fun qa =>
                    answer_eq_empty qa
                    && (last_answer_time <? QuestionAnswer.created_at qa))
                 suffix)) /\
  filter_chat_history [] = Returned ([], []).
Proof.
  split; [|reflexivity].
  destruct (filter_chat_history_trimmed history) as (unanswered & Hr & He & Hn).
  exists (trimmed_history history), (filter answer_ne_empty (trimmed_history history)),
    unanswered.
  split; [apply trimmed_history_after_last_stop_point|].
  repeat split; assumption.
Qed.

(** With every answer present, the first component is the turns with a
    non-empty answer. *)
Lemma answer_ne_empty_present (qa : QuestionAnswer.t) (s : string) :
  QuestionAnswer.answer qa = Some s ->
  answer_ne_empty qa = negb (String.eqb s EmptyString) /\
  answer_eq_empty qa = String.eqb s EmptyString.
Proof.
  unfold answer_ne_empty, answer_eq_empty. now intros ->.
Qed.

Lemma answer_absent (qa : QuestionAnswer.t) :
  QuestionAnswer.answer qa = None ->
  answer_ne_empty qa = true /\ answer_eq_empty qa = false.
Proof.
  unfold answer_ne_empty, answer_eq_empty. now intros ->.
Qed.

(** C1 at an absent answer.  Of an open question and a later turn whose
    answer is absent neither is answered, so no pair is to be returned and
    both turns are unanswered turns to be returned unchanged.  The code takes
    the turn without an answer for a pair and drops the open question as
    older than it. *)
Theorem filter_chat_history_absent_answer :
  is_unanswered (open_turn 1 10000000) = true /\
  is_unanswered (absent_turn 2 20000000) = true /\
  after_last_stop_point
    [open_turn 1 10000000; absent_turn 2 20000000]
    [open_turn 1 10000000; absent_turn 2 20000000] /\
  filter is_answered [open_turn 1 10000000; absent_turn 2 20000000] = [] /\
  filter_chat_history [open_turn 1 10000000; absent_turn 2 20000000]
  = Returned ([absent_turn 2 20000000], []) /\
  filter_chat_history [open_turn 1 10000000; absent_turn 2 20000000]
  <> Returned ([], filter is_unanswered
                          [open_turn 1 10000000; absent_turn 2 20000000]).
Proof.
  repeat split; try discriminate.
  - repeat constructor.
  - now left.
Qed.

Lemma tests_when_present (qa : QuestionAnswer.t) :
  QuestionAnswer.answer qa <> None ->
  answer_ne_empty qa = is_answered qa /\
  answer_eq_empty qa = is_unanswered qa.
Proof.
  unfold answer_ne_empty, answer_eq_empty, is_answered, is_unanswered.
  destruct (QuestionAnswer.answer qa); [auto|congruence].
Qed.

Lemma after_last_stop_point_incl (history suffix : list QuestionAnswer.t) :
  after_last_stop_point history suffix -> incl suffix history.
Proof.
  intros [_ [->|(before & stop & -> & _)]]; [apply incl_refl|].
  intros x Hx. apply in_or_app. right. now right.
Qed.

(** X23.  On histories in which every answer is present (a string, possibly
    empty) [filter_chat_history] does what the specification asks of
    [segment]: the turns up to the last one with [stop_point] are discarded;
    the pairs are the turns of the remaining suffix with a non-empty answer;
    when there is none, the unanswered turns of the suffix are returned
    unchanged, otherwise those of them created strictly later than the
    maximum [created_at] of the pairs. *)
Theorem filter_chat_history_present_answers
  (history : list QuestionAnswer.t) :
  Forall (fun qa => QuestionAnswer.answer qa <> None) history ->
  exists suffix pairs unanswered,
    after_last_stop_point history suffix /\
    filter_chat_history history = Returned (pairs, unanswered) /\
    pairs = filter is_answered suffix /\
    (pairs = [] -> unanswered = filter is_unanswered suffix) /\
    (pairs <> [] ->
     exists last_answer_time,
       is_maximum last_answer_time (map QuestionAnswer.created_at pairs) /\
       unanswered
       = filter (fun qa =>
                   is_unanswered qa
                   && (last_answer_time <? QuestionAnswer.created_at qa))
                suffix).
Proof.
  intros Hpresent.
  destruct (filter_chat_history_suffix history)
    as [(suffix & pairs & unanswered & Hsuf & Hcall & Hpairs & Hnil & Hcons)
          _].
  assert (forall qa, In qa suffix -> QuestionAnswer.answer qa <> None)
    as Hin.
  { intros qa Hqa. rewrite Forall_forall in Hpresent. apply Hpresent.
    now apply (after_last_stop_point_incl _ _ Hsuf). }
  exists suffix, pairs, unanswered. split; [exact Hsuf|].
  split; [exact Hcall|]. split; [|split].
  - rewrite Hpairs. apply filter_ext_in. intros qa Hqa.
    now apply tests_when_present, Hin.
  - intros Hp. rewrite (Hnil Hp). apply filter_ext_in. intros qa Hqa.
    now apply tests_when_present, Hin.
  - intros Hp. destruct (Hcons Hp) as (t & Hmax & ->).
    exists t. split; [exact Hmax|]. apply filter_ext_in. intros qa Hqa.
    f_equal. now apply tests_when_present, Hin.
Qed.

Lemma filter_chat_history_present_answers_witness :
  exists suffix pairs unanswered,
    after_last_stop_point
      [open_turn 1 10000000; answered_turn 2 20000000; open_turn 3 30000000]
      suffix /\
    filter_chat_history
      [open_turn 1 10000000; answered_turn 2 20000000; open_turn 3 30000000]
    = Returned (pairs, unanswered) /\
    pairs = filter is_answered suffix /\
    (pairs = [] -> unanswered = filter is_unanswered suffix) /\
    (pairs <> [] ->
     exists last_answer_time,
       is_maximum last_answer_time (map QuestionAnswer.created_at pairs) /\
       unanswered
       = filter (fun qa =>
                   is_unanswered qa
                   && (last_answer_time <? QuestionAnswer.created_at qa))
                suffix).
Proof.
  apply (filter_chat_history_present_answers
           [open_turn 1 10000000; answered_turn 2 20000000;
            open_turn 3 30000000]).
  repeat constructor; discriminate.
Defined.

(** The stale open question of the specification's example is dropped. *)
Example filter_chat_history_stale_unanswered :
  filter_chat_history
    [open_turn 1 10000000; answered_turn 2 20000000; open_turn 3 30000000]
  = Returned ([answered_turn 2 20000000], [open_turn 3 30000000]).
Proof. reflexivity. Qed.

(** ** Ordering by [created_at] *)

Section OrderByFacts.

Variable before : Z -> Z -> bool.
Hypothesis before_total : forall a b, before a b = false -> before b a = true.
Hypothesis before_trans :
  forall a b c, before a b = true -> before b c = true -> before a c = true.

Let ordered (x y : QuestionAnswer.t) : Prop :=
  before (QuestionAnswer.created_at x) (QuestionAnswer.created_at y) = true.

Lemma insert_by_perm (x : QuestionAnswer.t) (l : list QuestionAnswer.t) :
  Permutation (insert_by before x l) (x :: l).
Proof.
  induction l as [|y l IH]; simpl; [reflexivity|].
  destruct (before _ _); [reflexivity|].
  rewrite IH. apply perm_swap.
Qed.

Lemma order_by_perm (l : list QuestionAnswer.t) :
  Permutation (order_by before l) l.
Proof.
  induction l as [|x l IH]; simpl; [reflexivity|].
  rewrite insert_by_perm. now constructor.
Qed.

Lemma insert_by_sorted (x : QuestionAnswer.t) (l : list QuestionAnswer.t) :
  StronglySorted ordered l -> StronglySorted ordered (insert_by before x l).
Proof.
  induction 1 as [|y l Hl IH Hy]; simpl.
  - repeat constructor.
  - destruct (before (QuestionAnswer.created_at x)
                     (QuestionAnswer.created_at y)) eqn:Hxy.
    + constructor; [now constructor|]. constructor; [exact Hxy|].
      eapply Forall_impl; [|exact Hy]. intros z Hz. unfold ordered in *.
      eapply before_trans; eassumption.
    + constructor; [exact IH|].
      eapply Permutation_Forall;
        [symmetry; apply insert_by_perm|].
      constructor; [now apply before_total | exact Hy].
Qed.

Lemma order_by_sorted (l : list QuestionAnswer.t) :
  StronglySorted ordered (order_by before l).
Proof.
  induction l as [|x l IH]; simpl; [constructor|].
  now apply insert_by_sorted.
Qed.

End OrderByFacts.

Lemma StronglySorted_weaken {A} (R S : A -> A -> Prop) (l : list A) :
  (forall a b, R a b -> S a b) -> StronglySorted R l -> StronglySorted S l.
Proof.
  intros HRS. induction 1 as [|x l _ IH Hx]; constructor; [exact IH|].
  eapply Forall_impl; [|exact Hx]. auto.
Qed.

Lemma StronglySorted_filter {A} (R : A -> A -> Prop) (f : A -> bool)
  (l : list A) :
  StronglySorted R l -> StronglySorted R (filter f l).
Proof.
  induction 1 as [|x l _ IH Hx]; simpl; [constructor|].
  destruct (f x); [|exact IH]. constructor; [exact IH|].
  rewrite Forall_forall in *. intros y Hy. apply Hx.
  now apply filter_In in Hy.
Qed.

Lemma StronglySorted_skipn {A} (R : A -> A -> Prop) (l : list A) :
  StronglySorted R l -> forall n, StronglySorted R (skipn n l).
Proof.
  induction 1 as [|x l Hl IH Hx]; intros [|n]; simpl;
    try constructor; auto.
Qed.

Lemma order_by_created_at_desc_perm (l : list QuestionAnswer.t) :
  Permutation (order_by_created_at_desc l) l.
Proof. apply order_by_perm. Qed.

Lemma order_by_created_at_desc_sorted (l : list QuestionAnswer.t) :
  most_recent_first (order_by_created_at_desc l).
Proof.
  eapply StronglySorted_weaken;
    [|apply (order_by_sorted (fun a b => b <=? a))].
  - simpl. intros a b H. now apply Z.leb_le.
  - intros a b H. apply Z.leb_gt in H. apply Z.leb_le. lia.
  - intros a b c H1 H2. apply Z.leb_le in H1, H2. apply Z.leb_le. lia.
Qed.

Lemma order_by_created_at_asc_perm (l : list QuestionAnswer.t) :
  Permutation (order_by_created_at_asc l) l.
Proof. apply order_by_perm. Qed.

Lemma order_by_created_at_asc_sorted (l : list QuestionAnswer.t) :
  oldest_first (order_by_created_at_asc l).
Proof.
  eapply StronglySorted_weaken; [|apply (order_by_sorted Z.leb)].
  - simpl. intros a b H. now apply Z.leb_le.
  - intros a b H. apply Z.leb_gt in H. apply Z.leb_le. lia.
  - intros a b c H1 H2. apply Z.leb_le in H1, H2. apply Z.leb_le. lia.
Qed.

(** Two descending arrangements of the same numbers are the same list, so
    the times of the rows by recency do not depend on how ties are broken. *)
Lemma descending_unique (l1 : list Z) : forall l2,
  StronglySorted Z.ge l1 -> StronglySorted Z.ge l2 ->
  Permutation l1 l2 -> l1 = l2.
Proof.
  induction l1 as [|a l1 IH]; intros l2 H1 H2 Hp.
  - now apply Permutation_nil in Hp.
  - destruct l2 as [|b l2].
    + symmetry in Hp. now apply Permutation_nil in Hp.
    + inversion H1 as [|? ? H1' Ha]; subst.
      inversion H2 as [|? ? H2' Hb]; subst.
      rewrite Forall_forall in Ha, Hb.
      assert (a <= b) as Hab.
      { assert (In a (b :: l2)) as [->|Hin]
            by (eapply Permutation_in; [exact Hp | now left]).
        - lia.
        - specialize (Hb _ Hin). lia. }
      assert (b <= a) as Hba.
      { assert (In b (a :: l1)) as [->|Hin]
            by (eapply Permutation_in; [symmetry; exact Hp | now left]).
        - lia.
        - specialize (Ha _ Hin). lia. }
      assert (a = b) by lia. subst b.
      f_equal. apply IH; try assumption.
      eapply Permutation_cons_inv; exact Hp.
Qed.

Lemma most_recent_first_times (l : list QuestionAnswer.t) :
  most_recent_first l ->
  StronglySorted Z.ge (map QuestionAnswer.created_at l).
Proof.
  induction 1 as [|x l _ IH Hx]; simpl; constructor; [exact IH|].
  rewrite Forall_forall in *. intros t Ht.
  apply in_map_iff in Ht as (y & <- & Hy). specialize (Hx _ Hy). lia.
Qed.

Lemma most_recent_first_times_unique (s1 s2 : list QuestionAnswer.t) :
  most_recent_first s1 -> most_recent_first s2 -> Permutation s1 s2 ->
  map QuestionAnswer.created_at s1 = map QuestionAnswer.created_at s2.
Proof.
  intros H1 H2 Hp.
  apply descending_unique; try now apply most_recent_first_times.
  now apply Permutation_map.
Qed.

(** ** check_spam *)

Lemma check_spam_unfold (now : Z) (e : Engine) (user_id : Z) (user : User.t) :
  user_with_id user_id e = Some user ->
  let qas := order_by_created_at_desc (turns_of e user) in
  check_spam now e user_id
  = if len qas >? 5
    then match nth_error qas 4 with
         | Some fifth_message =>
             Returned (now - timedelta_minutes 1
                       <? QuestionAnswer.created_at fifth_message, e)
         | None => Raised IndexError
         end
    else Returned (false, e).
Proof.
  intros Hu qas. unfold user_with_id in Hu.
  unfold check_spam, bind, first_user_where_id. rewrite Hu.
  unfold relationship_question_answers. fold (turns_of e user). fold qas.
  destruct (len qas >? 5); [|reflexivity].
  unfold lift, getitem. now destruct (nth_error qas 4).
Qed.

(** C4.  For an existing user [check_spam] returns, leaves the store as it
    is, and answers true exactly when the user owns more than 5 turns and the
    fifth most recent of them was created later than 60 seconds before the
    time of the call; with exactly 5 turns it answers false. *)
Theorem check_spam_spec
  (now : Z) (e : Engine) (user_id : Z) (user : User.t) :
  user_with_id user_id e = Some user ->
  exists spam,
    check_spam now e user_id = Returned (spam, e) /\
    (spam = true <->
     5 < len (turns_of e user) /\
     exists t, created_at_by_recency 4 (turns_of e user) t /\
               now - 60 * 1000000 < t) /\
    (len (turns_of e user) = 5 -> spam = false).
Proof.
  intros Hu. rewrite (check_spam_unfold now _ _ _ Hu).
  set (qas := order_by_created_at_desc (turns_of e user)).
  assert (len qas = len (turns_of e user)) as Hlen.
  { unfold len. f_equal. apply Permutation_length.
    apply order_by_created_at_desc_perm. }
  destruct (Z.gtb_spec (len qas) 5) as [Hgt|Hle].
  - destruct (nth_error qas 4) as [fifth|] eqn:Hnth.
    + eexists. split; [reflexivity|]. split; [split|].
      * intros Hspam. apply Z.ltb_lt in Hspam. split; [lia|].
        exists (QuestionAnswer.created_at fifth). split.
        -- exists qas. split; [apply order_by_created_at_desc_perm|].
           split; [apply order_by_created_at_desc_sorted|].
           now rewrite nth_error_map, Hnth.
        -- unfold timedelta_minutes in Hspam. lia.
      * intros (_ & t & (sorted & Hperm & Hsorted & Ht) & Hwithin).
        assert (map QuestionAnswer.created_at sorted
                = map QuestionAnswer.created_at qas) as Htimes.
        { apply most_recent_first_times_unique; try assumption.
          - apply order_by_created_at_desc_sorted.
          - rewrite Hperm. symmetry. apply order_by_created_at_desc_perm. }
        rewrite Htimes, nth_error_map, Hnth in Ht. injection Ht as <-.
        apply Z.ltb_lt. unfold timedelta_minutes. lia.
      * lia.
    + apply nth_error_None in Hnth. unfold len in Hgt. lia.
  - exists false. split; [reflexivity|]. split; [split|]; try reflexivity.
    + discriminate.
    + intros [Hmore _]. lia.
Qed.

Lemma check_spam_spec_witness :
  exists spam,
    check_spam 100000000 spam_engine 1 = Returned (spam, spam_engine) /\
    (spam = true <->
     5 < len (turns_of spam_engine sample_user) /\
     exists t, created_at_by_recency 4 (turns_of spam_engine sample_user) t /\
               100000000 - 60 * 1000000 < t) /\
    (len (turns_of spam_engine sample_user) = 5 -> spam = false).
Proof.
  apply (check_spam_spec 100000000 spam_engine 1 sample_user).
  reflexivity.
Defined.

(** C10.  For a user id without a row [check_spam] returns false, raises
    nothing and leaves the store as it is. *)
Theorem check_spam_unknown_user (now : Z) (e : Engine) (user_id : Z) :
  user_with_id user_id e = None ->
  check_spam now e user_id = Returned (false, e).
Proof.
  unfold user_with_id, check_spam, bind, first_user_where_id.
  now intros ->.
Qed.

Lemma check_spam_unknown_user_witness :
  check_spam 100000000 spam_engine 2 = Returned (false, spam_engine).
Proof.
  apply (check_spam_unknown_user 100000000 spam_engine 2).
  reflexivity.
Defined.

Example check_spam_burst :
  result (check_spam 100000000 spam_engine 1) = Returned true.
Proof. reflexivity. Qed.

(** ** add_user *)

Lemma find_app_new {A} (p : A -> bool) (l : list A) (x : A) :
  find p l = None -> p x = true -> find p (l ++ [x]) = Some x.
Proof.
  induction l as [|y l IH]; simpl; intros Hl Hx.
  - now rewrite Hx.
  - destruct (p y); [discriminate|]. now apply IH.
Qed.

Lemma add_user_existing (e : Engine) (m : Z) (user : User.t) :
  user_with_max_id m e = Some user ->
  add_user e (Some m) = Returned ((false, User.id user), e).
Proof.
  unfold user_with_max_id, add_user, bind, scalar_user_where_max_id.
  now intros ->.
Qed.

Lemma add_user_new (e : Engine) (m : Z) :
  user_with_max_id m e = None ->
  let user := User.mk (user_seq e + 1) (Some m) true (server_now e) None in
  add_user e (Some m)
  = Returned ((true, User.id user),
              mkEngine (users e ++ [user]) (question_answers e)
                       (user_seq e + 1) (question_answer_seq e)
                       (server_now e)).
Proof.
  unfold user_with_max_id, add_user, bind, scalar_user_where_max_id.
  now intros ->.
Qed.



(** C7.  Without an external id the local [user] is read before anything
    was assigned to it: [add_user] raises [UnboundLocalError] on every store
    and inserts nothing. *)
Theorem add_user_without_max_id (e : Engine) :
  add_user e None = Raised (UnboundLocalError "user").
Proof. reflexivity. Qed.

(** ** subscribe_user *)

Lemma set_is_subscribed_id (v : bool) (now target : Z) (u : User.t) :
  User.id (set_is_subscribed v now target u) = User.id u.
Proof.
  unfold set_is_subscribed. now destruct (User.id u =? target).
Qed.

Lemma find_set_is_subscribed (v : bool) (now target : Z) (l : list User.t) :
  find (fun u => User.id u =? target) (map (set_is_subscribed v now target) l)
  = option_map (set_is_subscribed v now target)
               (find (fun u => User.id u =? target) l).
Proof.
  induction l as [|x l IH]; simpl; [reflexivity|].
  rewrite set_is_subscribed_id.
  now destruct (User.id x =? target).
Qed.

(** C8 (as the code has it).  For a user id without a row [subscribe_user]
    returns [False], the value it also returns when a subscribed user is
    unsubscribed, and leaves the store as it is.  For an existing user it
    returns the negation of the stored [is_subscribed], and the stored user
    then carries that value, with the same id and external id. *)
Theorem subscribe_user_spec (e : Engine) (user_id : Z) :
  match user_with_id user_id e with
  | None => subscribe_user e user_id = Returned (false, e)
  | Some user =>
      exists e' user',
        subscribe_user e user_id
        = Returned (negb (User.is_subscribed user), e') /\
        user_with_id user_id e' = Some user' /\
        User.is_subscribed user' = negb (User.is_subscribed user) /\
        User.id user' = User.id user /\
        User.max_id user' = User.max_id user /\
        question_answers e' = question_answers e
  end.
Proof.
  destruct (user_with_id user_id e) as [user|] eqn:Hu;
    unfold user_with_id in Hu;
    unfold subscribe_user, bind, first_user_where_id; rewrite Hu;
    [|reflexivity].
  assert (User.id user = user_id) as Hid.
  { apply find_some in Hu as [_ Hu]. now apply Z.eqb_eq in Hu. }
  unfold commit_is_subscribed, ret. rewrite Hid.
  assert (forall v,
             set_is_subscribed v (server_now e) user_id user
             = User.mk (User.id user) (User.max_id user) v
                       (User.created_at user) (Some (server_now e))) as Hset.
  { intros v. unfold set_is_subscribed. rewrite Hid.
    now rewrite Z.eqb_refl. }
  rewrite Hset. simpl User.is_subscribed.
  eexists.
  exists (User.mk (User.id user) (User.max_id user)
                  (negb (User.is_subscribed user)) (User.created_at user)
                  (Some (server_now e))).
  split; [reflexivity|].
  unfold user_with_id. simpl users.
  rewrite find_set_is_subscribed, Hu. simpl option_map. rewrite Hset.
  repeat split; exact Hid.
Qed.

(** C8 as claimed fails: the result for a missing user equals the result of
    unsubscribing an existing one. *)
Lemma subscribe_user_not_found_is_false :
  user_with_id 2 spam_engine = None /\
  user_with_id 1 spam_engine = Some sample_user /\
  result (subscribe_user spam_engine 2) = Returned false /\
  result (subscribe_user spam_engine 1) = Returned false.
Proof. repeat split. Qed.

(** ** add_question_answer *)

Lemma existsb_find {A} (p : A -> bool) (l : list A) :
  existsb p l = match find p l with
                | Some _ => true
                | None => false
                end.
Proof.
  induction l as [|x l IH]; simpl; [reflexivity|].
  now destruct (p x).
Qed.

Lemma add_question_answer_unknown_user
  (e : Engine) (question answer : string) (confluence_url : option string)
  (user_id : Z) :
  user_with_id user_id e = None ->
  add_question_answer e question answer confluence_url user_id
  = Raised IntegrityError.
Proof.
  unfold user_with_id. intros Hu.
  unfold add_question_answer, bind, add_flush_refresh_commit.
  now rewrite existsb_find, Hu.
Qed.

Lemma add_question_answer_existing_user
  (e : Engine) (question answer : string) (confluence_url : option string)
  (user_id : Z) (user : User.t) :
  user_with_id user_id e = Some user ->
  add_question_answer e question answer confluence_url user_id
  = Returned
      (question_answer_seq e + 1,
       mkEngine (users e)
                (question_answers e
                 ++ [QuestionAnswer.mk (Some (question_answer_seq e + 1))
                                       question (Some answer) confluence_url
                                       None user_id (server_now e) None
                                       false])
                (user_seq e) (question_answer_seq e + 1) (server_now e)).
Proof.
  unfold user_with_id. intros Hu.
  unfold add_question_answer, bind, add_flush_refresh_commit.
  now rewrite existsb_find, Hu.
Qed.



(** ** get_history_of_chat *)

Lemma recent_qa_oldest_first now e user time :
  oldest_first (recent_qa now e user time).
Proof. apply order_by_created_at_asc_sorted. Qed.

Lemma get_history_of_chat_unknown_user
  (now : Z) (e : Engine) (user_id time limit_pairs : Z) :
  user_with_id user_id e = None ->
  get_history_of_chat now e user_id time limit_pairs = Returned ([], e).
Proof.
  unfold user_with_id, get_history_of_chat, bind, first_user_where_id.
  now intros ->.
Qed.

(** The cutoff of the window: computed when it is representable, an
    [OverflowError] otherwise. *)
Lemma cutoff_representable_dec (now time : Z) :
  {cutoff_representable now time} + {~ cutoff_representable now time}.
Proof.
  unfold cutoff_representable.
  destruct (Z_le_dec (-999999999) (time / 1440));
    destruct (Z_le_dec (time / 1440) 999999999);
    destruct (Z_le_dec datetime_min (now - time * 60000000));
    destruct (Z_le_dec (now - time * 60000000) datetime_max);
    try (left; lia); right; lia.
Qed.

Lemma cutoff_time_representable (now time : Z) :
  cutoff_representable now time ->
  obind (timedelta_of_minutes time) (datetime_sub now)
  = Returned (now - timedelta_minutes time).
Proof.
  intros [[H1 H2] [H3 H4]]. unfold timedelta_of_minutes.
  apply Z.leb_le in H1, H2. rewrite H1, H2. simpl.
  unfold datetime_sub, timedelta_minutes.
  apply Z.leb_le in H3, H4. now rewrite H3, H4.
Qed.

Lemma cutoff_time_overflow (now time : Z) :
  ~ cutoff_representable now time ->
  obind (timedelta_of_minutes time) (datetime_sub now) = Raised OverflowError.
Proof.
  intros Hnot. unfold timedelta_of_minutes.
  destruct ((-999999999 <=? time / 1440) && (time / 1440 <=? 999999999))
    eqn:Hdays; [|reflexivity].
  apply andb_true_iff in Hdays as [H1 H2]. apply Z.leb_le in H1, H2.
  simpl. unfold datetime_sub, timedelta_minutes.
  destruct ((datetime_min <=? now - time * 60000000)
            && (now - time * 60000000 <=? datetime_max)) eqn:Hrange;
    [|reflexivity].
  apply andb_true_iff in Hrange as [H3 H4]. apply Z.leb_le in H3, H4.
  exfalso. apply Hnot. unfold cutoff_representable. lia.
Qed.

Lemma get_history_of_chat_cutoff
  (now : Z) (e : Engine) (user_id time limit_pairs : Z) (user : User.t) :
  user_with_id user_id e = Some user ->
  get_history_of_chat now e user_id time limit_pairs
  = match obind (timedelta_of_minutes time) (datetime_sub now) with
    | Returned cutoff_time =>
        let recent_qa :=
          order_by_created_at_asc
            (filter (fun qa =>
                       (QuestionAnswer.user_id qa =? User.id user)
                       && (cutoff_time <=? QuestionAnswer.created_at qa))
                    (question_answers e)) in
        let full_pairs := filter answer_ne_empty recent_qa in
        Returned
          ((if len full_pairs >? limit_pairs
            then slice_from (- limit_pairs) full_pairs
            else full_pairs)
           ++ filter answer_eq_empty recent_qa, e)
    | Raised x => Raised x
    end.
Proof.
  intros Hu. unfold user_with_id in Hu.
  unfold get_history_of_chat, bind, first_user_where_id. rewrite Hu.
  unfold lift. destruct (timedelta_of_minutes time) as [delta|x];
    [|reflexivity].
  simpl obind. now destruct (datetime_sub now delta).
Qed.

Lemma get_history_of_chat_unfold
  (now : Z) (e : Engine) (user_id time limit_pairs : Z) (user : User.t) :
  user_with_id user_id e = Some user ->
  cutoff_representable now time ->
  let recent := recent_qa now e user time in
  let full_pairs := filter answer_ne_empty recent in
  get_history_of_chat now e user_id time limit_pairs
  = Returned
      ((if len full_pairs >? limit_pairs
        then slice_from (- limit_pairs) full_pairs
        else full_pairs)
       ++ filter answer_eq_empty recent, e).
Proof.
  intros Hu Hrep recent full_pairs.
  rewrite (get_history_of_chat_cutoff _ _ _ _ _ _ Hu).
  now rewrite (cutoff_time_representable _ _ Hrep).
Qed.

Lemma get_history_of_chat_overflow
  (now : Z) (e : Engine) (user_id time limit_pairs : Z) (user : User.t) :
  user_with_id user_id e = Some user ->
  ~ cutoff_representable now time ->
  get_history_of_chat now e user_id time limit_pairs = Raised OverflowError.
Proof.
  intros Hu Hnot.
  rewrite (get_history_of_chat_cutoff _ _ _ _ _ _ Hu).
  now rewrite (cutoff_time_overflow _ _ Hnot).
Qed.

(** What the cap of [get_history_of_chat] keeps, by the sign of
    [limit_pairs]. *)
Lemma cap_positive {A} (limit_pairs : Z) (l : list A) :
  0 < limit_pairs ->
  (if len l >? limit_pairs then slice_from (- limit_pairs) l else l)
  = most_recent (Z.to_nat limit_pairs) l.
Proof.
  intros Hpos. unfold most_recent, slice_from, len.
  destruct (Z.gtb_spec (Z.of_nat (List.length l)) limit_pairs) as [Hgt|Hle].
  - destruct (Z.ltb_spec (- limit_pairs) 0) as [_|Hge]; [|lia].
    f_equal. lia.
  - replace (List.length l - Z.to_nat limit_pairs)%nat with 0%nat by lia.
    reflexivity.
Qed.

Lemma cap_zero {A} (l : list A) :
  (if len l >? 0 then slice_from (- 0) l else l) = l.
Proof.
  destruct (len l >? 0); reflexivity.
Qed.

Lemma cap_negative {A} (limit_pairs : Z) (l : list A) :
  limit_pairs < 0 ->
  (if len l >? limit_pairs then slice_from (- limit_pairs) l else l)
  = skipn (Z.to_nat (- limit_pairs)) l.
Proof.
  intros Hneg. unfold slice_from, len.
  destruct (Z.gtb_spec (Z.of_nat (List.length l)) limit_pairs) as [_|Hle];
    [|lia].
  destruct (Z.ltb_spec (- limit_pairs) 0) as [Hlt|_]; [lia|reflexivity].
Qed.

(** For a positive [limit_pairs] the result is the last [limit_pairs] rows
    with an answer other than the empty string, followed by every row whose
    answer is the empty string, each part oldest first. *)
Lemma get_history_of_chat_positive_limit
  (now : Z) (e : Engine) (user_id time limit_pairs : Z) (user : User.t) :
  0 < limit_pairs ->
  user_with_id user_id e = Some user ->
  cutoff_representable now time ->
  let recent := recent_qa now e user time in
  let full_pairs :=
    most_recent (Z.to_nat limit_pairs) (filter answer_ne_empty recent) in
  let unanswered := filter answer_eq_empty recent in
  get_history_of_chat now e user_id time limit_pairs
  = Returned (full_pairs ++ unanswered, e) /\
  oldest_first full_pairs /\ oldest_first unanswered.
Proof.
  intros Hpos Hu Hrep recent full_pairs unanswered.
  rewrite (get_history_of_chat_unfold _ _ _ _ _ _ Hu Hrep).
  rewrite (cap_positive _ _ Hpos). split; [reflexivity|].
  split.
  - apply StronglySorted_skipn, StronglySorted_filter,
      recent_qa_oldest_first.
  - apply StronglySorted_filter, recent_qa_oldest_first.
Qed.

(** C9 (as the code has it).  A negative [limit_pairs] is not checked and
    raises nothing of its own.  For a user id without a row the result is the
    empty list.  For an existing user whose cutoff [now - time] minutes can
    be computed, the result is the rows of the window with an answer other
    than the empty string without their first [- limit_pairs] ones, followed
    by every row of the window whose answer is the empty string.  For an
    existing user whose cutoff cannot be computed the [datetime] arithmetic
    raises [OverflowError], as it does for every [limit_pairs]. *)
Theorem get_history_of_chat_negative_limit
  (now : Z) (e : Engine) (user_id time limit_pairs : Z) :
  limit_pairs < 0 ->
  match user_with_id user_id e with
  | None =>
      get_history_of_chat now e user_id time limit_pairs = Returned ([], e)
  | Some user =>
      (cutoff_representable now time ->
       let recent := recent_qa now e user time in
       get_history_of_chat now e user_id time limit_pairs
       = Returned
           (skipn (Z.to_nat (- limit_pairs)) (filter answer_ne_empty recent)
            ++ filter answer_eq_empty recent, e)) /\
      (~ cutoff_representable now time ->
       get_history_of_chat now e user_id time limit_pairs
       = Raised OverflowError)
  end.
Proof.
  intros Hneg. destruct (user_with_id user_id e) as [user|] eqn:Hu.
  - split.
    + intros Hrep recent.
      rewrite (get_history_of_chat_unfold _ _ _ _ _ _ Hu Hrep).
      now rewrite (cap_negative _ _ Hneg).
    + now apply get_history_of_chat_overflow with (user := user).
  - now apply get_history_of_chat_unknown_user.
Qed.

Lemma get_history_of_chat_negative_limit_witness :
  cutoff_representable 100000000 30 /\
  match user_with_id 1 window_engine with
  | None =>
      get_history_of_chat 100000000 window_engine 1 30 (-1)
      = Returned ([], window_engine)
  | Some user =>
      (cutoff_representable 100000000 30 ->
       let recent := recent_qa 100000000 window_engine user 30 in
       get_history_of_chat 100000000 window_engine 1 30 (-1)
       = Returned
           (skipn (Z.to_nat (- (-1))) (filter answer_ne_empty recent)
            ++ filter answer_eq_empty recent, window_engine)) /\
      (~ cutoff_representable 100000000 30 ->
       get_history_of_chat 100000000 window_engine 1 30 (-1)
       = Raised OverflowError)
  end.
Proof.
  split.
  - unfold cutoff_representable, datetime_min, datetime_max.
    change (30 / 1440) with 0. lia.
  - apply (get_history_of_chat_negative_limit 100000000 window_engine 1 30
                                              (-1)).
    lia.
Defined.

(** C9 as claimed fails: with [limit_pairs = -1] the call returns a list
    (the answered turns but the oldest, then the open question) and raises
    nothing. *)
Lemma get_history_of_chat_negative_limit_returns :
  result (get_history_of_chat 100000000 window_engine 1 30 (-1))
  = Returned [answered_turn 2 20000000; answered_turn 3 30000000;
              answered_turn 4 40000000; open_turn 5 50000000] /\
  forall x,
    result (get_history_of_chat 100000000 window_engine 1 30 (-1))
    <> Raised x.
Proof. split; [reflexivity|discriminate]. Qed.

(** The pair cap of the specification's example: two of four answered turns
    survive [limit_pairs = 2]. *)
Example get_history_of_chat_pair_cap :
  result (get_history_of_chat 100000000 window_engine 1 30 2)
  = Returned [answered_turn 3 30000000; answered_turn 4 40000000;
              open_turn 5 50000000].
Proof. reflexivity. Qed.

(** With [limit_pairs = 0] the slice [full_pairs[-0:]] is the whole list:
    nothing is capped, on any store. *)
Lemma get_history_of_chat_zero_limit
  (now : Z) (e : Engine) (user_id time : Z) (user : User.t) :
  user_with_id user_id e = Some user ->
  cutoff_representable now time ->
  let recent := recent_qa now e user time in
  get_history_of_chat now e user_id time 0
  = Returned (filter answer_ne_empty recent ++ filter answer_eq_empty recent,
              e).
Proof.
  intros Hu Hrep recent.
  rewrite (get_history_of_chat_unfold _ _ _ _ _ _ Hu Hrep).
  now rewrite cap_zero.
Qed.

(** C3 at [limit_pairs = 0].  Four answered turns are in the window, more
    than the limit, so the claim keeps the most recent zero of them; the code
    returns all four before the open question. *)
Theorem get_history_of_chat_zero_limit_keeps_all :
  user_with_id 1 window_engine = Some sample_user /\
  filter answer_ne_empty (recent_qa 100000000 window_engine sample_user 30)
  = [answered_turn 1 10000000; answered_turn 2 20000000;
     answered_turn 3 30000000; answered_turn 4 40000000] /\
  most_recent 0
    (filter answer_ne_empty (recent_qa 100000000 window_engine sample_user 30))
  = [] /\
  result (get_history_of_chat 100000000 window_engine 1 30 0)
  = Returned [answered_turn 1 10000000; answered_turn 2 20000000;
              answered_turn 3 30000000; answered_turn 4 40000000;
              open_turn 5 50000000].
Proof. repeat split. Qed.

(** C2 at an absent answer.  A turn whose answer is [None] passes the
    test [answer_ne_empty]: [filter_chat_history] returns it in the first
    component, and [get_history_of_chat] counts it against [limit_pairs], so
    that with a limit of 1 it pushes the one answered turn out of the
    result. *)
Theorem absent_answer_is_a_pair :
  QuestionAnswer.answer (absent_turn 2 20000000) = None /\
  filter_chat_history [absent_turn 2 20000000]
  = Returned ([absent_turn 2 20000000], []) /\
  result (get_history_of_chat 100000000 absent_engine 1 30 1)
  = Returned [absent_turn 2 20000000].
Proof. repeat split. Qed.

(** * Further properties of the module *)

(** ** get_user_id and add_user *)

Lemma get_user_id_lookup (e : Engine) (m : Z) :
  get_user_id e (Some m)
  = Returned (option_map User.id (user_with_max_id m e), e).
Proof.
  unfold get_user_id, bind, scalar_user_where_max_id, user_with_max_id.
  now destruct (find (max_id_is m) (users e)).
Qed.



(** X3.  [get_user_id] returns exactly when an external id is given, and
    then without writing.  Without one it reads, like [add_user], its local
    [user] before anything was assigned to it and raises
    [UnboundLocalError] on every store instead of returning [None]. *)
Theorem get_user_id_without_max_id (e : Engine) (max_id : option Z) :
  ((exists found, get_user_id e max_id = Returned (found, e)) <->
   max_id <> None) /\
  (max_id = None ->
   get_user_id e max_id = Raised (UnboundLocalError "user")).
Proof.
  destruct max_id as [m|].
  - rewrite get_user_id_lookup. split; [|discriminate].
    split; [discriminate|]. intros _. now eexists.
  - split; [|reflexivity]. split.
    + intros [found H]. discriminate H.
    + intros H. now contradiction H.
Qed.

(** ** subscribe_user *)

Lemma subscribe_user_existing (e : Engine) (user_id : Z) (user : User.t) :
  user_with_id user_id e = Some user ->
  subscribe_user e user_id
  = Returned
      (negb (User.is_subscribed user),
       mkEngine (map (set_is_subscribed (negb (User.is_subscribed user))
                                        (server_now e) user_id)
                     (users e))
                (question_answers e) (user_seq e) (question_answer_seq e)
                (server_now e)).
Proof.
  intros Hu. unfold user_with_id in Hu.
  assert (User.id user = user_id) as Hid.
  { apply find_some in Hu as [_ Hu]. now apply Z.eqb_eq in Hu. }
  unfold subscribe_user, bind, first_user_where_id. rewrite Hu.
  unfold commit_is_subscribed, ret. rewrite Hid.
  unfold set_is_subscribed at 1. rewrite Hid, Z.eqb_refl. reflexivity.
Qed.

Lemma user_with_id_after_toggle (e : Engine) (user_id : Z) (v : bool)
  (now : Z) (qas : list QuestionAnswer.t) (s1 s2 : Z) (t : Z) :
  user_with_id user_id
    (mkEngine (map (set_is_subscribed v now user_id) (users e)) qas s1 s2 t)
  = option_map (set_is_subscribed v now user_id) (user_with_id user_id e).
Proof.
  unfold user_with_id. simpl users. apply find_set_is_subscribed.
Qed.

(** X4.  Toggling twice gives the subscription back: for an existing user
    the first [subscribe_user] returns the negation of the stored flag, a
    second call, at any later time, returns the stored flag itself, and the
    user then found under the id carries it, with the id, external id and
    creation time it had. *)
Theorem subscribe_user_twice
  (e : Engine) (user_id : Z) (user : User.t) (later : Z) :
  user_with_id user_id e = Some user ->
  exists e1 e2 user2,
    subscribe_user e user_id
    = Returned (negb (User.is_subscribed user), e1) /\
    subscribe_user (with_clock later e1) user_id
    = Returned (User.is_subscribed user, e2) /\
    user_with_id user_id e2 = Some user2 /\
    User.is_subscribed user2 = User.is_subscribed user /\
    User.id user2 = User.id user /\
    User.max_id user2 = User.max_id user /\
    User.created_at user2 = User.created_at user.
Proof.
  intros Hu.
  assert (User.id user = user_id) as Hid.
  { unfold user_with_id in Hu. apply find_some in Hu as [_ Hu].
    now apply Z.eqb_eq in Hu. }
  rewrite (subscribe_user_existing _ _ _ Hu).
  set (e1 := mkEngine _ _ _ _ _).
  set (user1 := set_is_subscribed (negb (User.is_subscribed user))
                                  (server_now e) user_id user).
  assert (user_with_id user_id (with_clock later e1) = Some user1) as Hu1.
  { unfold with_clock, e1. simpl.
    rewrite user_with_id_after_toggle, Hu. reflexivity. }
  assert (user1 = User.mk (User.id user) (User.max_id user)
                          (negb (User.is_subscribed user))
                          (User.created_at user) (Some (server_now e)))
    as Hu1eq.
  { unfold user1, set_is_subscribed. now rewrite Hid, Z.eqb_refl. }
  exists e1. rewrite (subscribe_user_existing _ _ _ Hu1).
  rewrite Hu1eq. simpl User.is_subscribed. rewrite negb_involutive.
  do 2 eexists. split; [reflexivity|]. split; [reflexivity|].
  rewrite user_with_id_after_toggle, Hu1, Hu1eq. simpl option_map.
  unfold set_is_subscribed. simpl User.id. rewrite Hid, Z.eqb_refl.
  split; [reflexivity|]. simpl. auto.
Qed.

Lemma subscribe_user_twice_witness :
  exists e1 e2 user2,
    subscribe_user spam_engine 1
    = Returned (negb (User.is_subscribed sample_user), e1) /\
    subscribe_user (with_clock 200000000 e1) 1
    = Returned (User.is_subscribed sample_user, e2) /\
    user_with_id 1 e2 = Some user2 /\
    User.is_subscribed user2 = User.is_subscribed sample_user /\
    User.id user2 = User.id sample_user /\
    User.max_id user2 = User.max_id sample_user /\
    User.created_at user2 = User.created_at sample_user.
Proof.
  apply (subscribe_user_twice spam_engine 1 sample_user 200000000).
  reflexivity.
Defined.

Lemma find_other_set_is_subscribed
  (v : bool) (now target other : Z) (l : list User.t) :
  other <> target ->
  find (fun u => User.id u =? other) (map (set_is_subscribed v now target) l)
  = find (fun u => User.id u =? other) l.
Proof.
  intros Hneq. induction l as [|x l IH]; simpl; [reflexivity|].
  rewrite set_is_subscribed_id.
  destruct (Z.eqb_spec (User.id x) other) as [Hx|_]; [|exact IH].
  unfold set_is_subscribed.
  destruct (Z.eqb_spec (User.id x) target) as [Ht|_]; [congruence|].
  reflexivity.
Qed.

Lemma set_is_subscribed_max_id (v : bool) (now target : Z) (u : User.t) :
  User.max_id (set_is_subscribed v now target u) = User.max_id u.
Proof.
  unfold set_is_subscribed. now destruct (User.id u =? target).
Qed.

(** What [subscribe_user] leaves a store in: the users mapped by
    [set_is_subscribed], or the store itself. *)
Lemma subscribe_user_store (e : Engine) (user_id : Z) :
  exists b e',
    subscribe_user e user_id = Returned (b, e') /\
    (e' = e \/
     exists v,
       e' = mkEngine (map (set_is_subscribed v (server_now e) user_id)
                          (users e))
                     (question_answers e) (user_seq e)
                     (question_answer_seq e) (server_now e)).
Proof.
  destruct (user_with_id user_id e) as [user|] eqn:Hu.
  - rewrite (subscribe_user_existing _ _ _ Hu). do 2 eexists.
    split; [reflexivity|]. right. eexists. reflexivity.
  - unfold user_with_id in Hu.
    unfold subscribe_user, bind, first_user_where_id. rewrite Hu.
    do 2 eexists. split; [reflexivity|]. now left.
Qed.

(** X5.  [subscribe_user] always returns, and touches nobody else: every
    other user id finds the very same user as before, the turns are the same,
    and the ids and external ids of the user table are the same, row by row. *)
Theorem subscribe_user_frame (e : Engine) (user_id other : Z) :
  other <> user_id ->
  exists b e',
    subscribe_user e user_id = Returned (b, e') /\
    user_with_id other e' = user_with_id other e /\
    question_answers e' = question_answers e /\
    map User.id (users e') = map User.id (users e) /\
    map User.max_id (users e') = map User.max_id (users e).
Proof.
  intros Hneq.
  destruct (subscribe_user_store e user_id) as (b & e' & Hcall & [->|[v ->]]).
  - exists b, e. auto.
  - eexists b, _. split; [exact Hcall|].
    unfold user_with_id. simpl users. simpl question_answers.
    split; [now apply find_other_set_is_subscribed|].
    split; [reflexivity|].
    rewrite !map_map. split; apply map_ext; intros u.
    + apply set_is_subscribed_id.
    + apply set_is_subscribed_max_id.
Qed.

Lemma subscribe_user_frame_witness :
  exists b e',
    subscribe_user spam_engine 1 = Returned (b, e') /\
    user_with_id 2 e' = user_with_id 2 spam_engine /\
    question_answers e' = question_answers spam_engine /\
    map User.id (users e') = map User.id (users spam_engine) /\
    map User.max_id (users e') = map User.max_id (users spam_engine).
Proof.
  apply (subscribe_user_frame spam_engine 1 2). lia.
Defined.

(** ** Well-formed stores *)

Lemma set_score_id v now target qa :
  QuestionAnswer.id (set_score v now target qa) = QuestionAnswer.id qa.
Proof. unfold set_score. now destruct (same_row target qa). Qed.

Lemma set_stop_point_field_id v now target qa :
  QuestionAnswer.id (set_stop_point_field v now target qa)
  = QuestionAnswer.id qa.
Proof. unfold set_stop_point_field. now destruct (same_row target qa). Qed.

Lemma present_max_ids_app (l1 l2 : list User.t) :
  present_max_ids (l1 ++ l2) = present_max_ids l1 ++ present_max_ids l2.
Proof. unfold present_max_ids. apply flat_map_app. Qed.

Lemma present_max_ids_in (m : Z) (l : list User.t) :
  In m (present_max_ids l) -> find (max_id_is m) l <> None.
Proof.
  induction l as [|u l IH]; simpl; [tauto|].
  unfold max_id_is at 1.
  destruct (User.max_id u) as [m'|]; simpl.
  - intros [->|Hin].
    + now rewrite Z.eqb_refl.
    + destruct (m' =? m); [discriminate|auto].
  - auto.
Qed.

(** Updates that keep the keys of every row keep a store well formed. *)
Lemma well_formed_update (e : Engine)
  (f : User.t -> User.t) (g : QuestionAnswer.t -> QuestionAnswer.t) (t : Z) :
  (forall u, User.id (f u) = User.id u) ->
  (forall u, User.max_id (f u) = User.max_id u) ->
  (forall qa, QuestionAnswer.id (g qa) = QuestionAnswer.id qa) ->
  well_formed e ->
  well_formed (mkEngine (map f (users e)) (map g (question_answers e))
                        (user_seq e) (question_answer_seq e) t).
Proof.
  intros Hid Hmax Hqid (Hu & Hseq & Hm & Hq & Hbound).
  unfold well_formed. simpl.
  repeat split.
  - rewrite map_map. now rewrite (map_ext _ User.id Hid).
  - rewrite Forall_map. eapply Forall_impl; [|exact Hseq].
    intros u. simpl. now rewrite Hid.
  - replace (present_max_ids (map f (users e)))
      with (present_max_ids (users e)); [exact Hm|].
    unfold present_max_ids. rewrite !flat_map_concat_map, map_map.
    f_equal. apply map_ext. intros u. now rewrite Hmax.
  - rewrite map_map. now rewrite (map_ext _ QuestionAnswer.id Hqid).
  - rewrite Forall_map.
    eapply Forall_impl; [|exact Hbound]. intros qa. simpl. now rewrite Hqid.
Qed.

Lemma well_formed_same_tables (e : Engine) (t : Z) :
  well_formed e -> well_formed (with_clock t e).
Proof.
  intros H. apply (well_formed_update e (fun u => u) (fun qa => qa) t) in H;
    auto.
  now rewrite !map_id in H.
Qed.

Lemma well_formed_add_user (e : Engine) (m : option Z) r e' :
  add_user e m = Returned (r, e') -> well_formed e -> well_formed e'.
Proof.
  destruct m as [m|]; [|discriminate].
  destruct (user_with_max_id m e) as [user|] eqn:Hu.
  - rewrite (add_user_existing _ _ _ Hu). now intros [= _ <-].
  - rewrite (add_user_new _ _ Hu). intros [= _ <-].
    intros (Hids & Hseq & Hm & Hq & Hs). unfold well_formed. simpl.
    repeat split; try assumption.
    + rewrite map_app. simpl.
      apply Permutation_NoDup
        with (l := (user_seq e + 1) :: map User.id (users e)).
      * apply Permutation_cons_append.
      * constructor; [|exact Hids]. intros Hin.
        apply in_map_iff in Hin as (u & Hu1 & Hin).
        rewrite Forall_forall in Hseq. specialize (Hseq _ Hin). lia.
    + apply Forall_app. split.
      * eapply Forall_impl; [|exact Hseq]. simpl. intros; lia.
      * repeat constructor. simpl. lia.
    + rewrite present_max_ids_app. simpl.
      apply Permutation_NoDup with (l := m :: present_max_ids (users e)).
      * apply Permutation_cons_append.
      * constructor; [|exact Hm]. intros Hin.
        now apply present_max_ids_in in Hin.
Qed.

Lemma well_formed_add_question_answer
  (e : Engine) (question answer : string) (confluence_url : option string)
  (user_id : Z) r e' :
  add_question_answer e question answer confluence_url user_id
  = Returned (r, e') ->
  well_formed e -> well_formed e'.
Proof.
  intros Hcall (Hids & Hseq & Hm & Hq & Hbound).
  destruct (user_with_id user_id e) as [user|] eqn:Hu.
  2: { rewrite (add_question_answer_unknown_user _ _ _ _ _ Hu) in Hcall.
       discriminate. }
  rewrite (add_question_answer_existing_user _ _ _ _ _ _ Hu) in Hcall.
  injection Hcall as _ <-.
  unfold well_formed. simpl. repeat split; try assumption.
  - rewrite map_app. simpl.
    apply Permutation_NoDup
      with (l := Some (question_answer_seq e + 1)
                 :: map QuestionAnswer.id (question_answers e)).
    + apply Permutation_cons_append.
    + constructor; [|exact Hq]. intros Hin.
      apply in_map_iff in Hin as (qa & Hqa & Hin).
      rewrite Forall_forall in Hbound.
      destruct (Hbound _ Hin) as (i & Hi & Hle).
      rewrite Hi in Hqa. injection Hqa as ->. lia.
  - apply Forall_app. split.
    + eapply Forall_impl; [|exact Hbound].
      intros qa (i & Hi & Hle). exists i. split; [exact Hi|lia].
    + repeat constructor. simpl. eexists. split; [reflexivity|lia].
Qed.

(** What [rate_answer] and [set_stop_point] leave a store in. *)
Lemma rate_answer_store (e : Engine) (question_answer_id score : Z) b e' :
  rate_answer e question_answer_id score = Returned (b, e') ->
  e' = e \/
  e' = mkEngine (users e)
                (map (set_score (Some score) (server_now e)
                                (Some question_answer_id))
                     (question_answers e))
                (user_seq e) (question_answer_seq e) (server_now e).
Proof.
  unfold rate_answer, bind, first_question_answer_where_id.
  destruct (find (id_is question_answer_id) (question_answers e))
    as [qa|] eqn:Hfind.
  - apply find_some in Hfind as [_ Hid]. unfold id_is in Hid.
    destruct (QuestionAnswer.id qa) as [j|] eqn:Hj; [|discriminate].
    apply Z.eqb_eq in Hid. subst j.
    unfold commit_score. rewrite Hj.
    destruct (score_is score qa); [intros [= _ <-]; now left|].
    destruct (fits_integer score); [|discriminate].
    intros [= _ <-]. now right.
  - intros [= _ <-]. now left.
Qed.

Lemma set_stop_point_store (e : Engine) (user_id : Z) (valbool : bool) :
  exists e',
    set_stop_point e user_id valbool = Returned (tt, e') /\
    (e' = e \/
     exists target,
       e' = mkEngine (users e)
                     (map (set_stop_point_field valbool (server_now e) target)
                          (question_answers e))
                     (user_seq e) (question_answer_seq e) (server_now e)).
Proof.
  unfold set_stop_point, bind, first_question_answer_where_user_id_desc.
  destruct (hd_error _) as [last_message|].
  - unfold commit_stop_point.
    destruct (Bool.eqb _ valbool); eexists;
      (split; [reflexivity|]); [now left|right; eexists; reflexivity].
  - eexists. split; [reflexivity|]. now left.
Qed.

(** The functions that only read. *)
Lemma get_user_id_store (e : Engine) (max_id : option Z) r e' :
  get_user_id e max_id = Returned (r, e') -> e' = e.
Proof.
  destruct max_id as [m|]; [|discriminate].
  rewrite get_user_id_lookup. now intros [= _ <-].
Qed.

Lemma check_spam_store (now : Z) (e : Engine) (user_id : Z) r e' :
  check_spam now e user_id = Returned (r, e') -> e' = e.
Proof.
  destruct (user_with_id user_id e) as [user|] eqn:Hu.
  - rewrite (check_spam_unfold now _ _ _ Hu).
    destruct (_ >? 5); [destruct (nth_error _ 4)|];
      congruence.
  - unfold user_with_id in Hu.
    unfold check_spam, bind, first_user_where_id. rewrite Hu.
    unfold ret. congruence.
Qed.

Lemma get_history_of_chat_store
  (now : Z) (e : Engine) (user_id time limit_pairs : Z) r e' :
  get_history_of_chat now e user_id time limit_pairs = Returned (r, e') ->
  e' = e.
Proof.
  destruct (user_with_id user_id e) as [user|] eqn:Hu.
  - destruct (cutoff_representable_dec now time) as [Hrep|Hnot].
    + rewrite (get_history_of_chat_unfold _ _ _ _ _ _ Hu Hrep). congruence.
    + rewrite (get_history_of_chat_overflow _ _ _ _ _ _ Hu Hnot).
      discriminate.
  - rewrite (get_history_of_chat_unknown_user _ _ _ _ _ Hu). congruence.
Qed.

Lemma step_well_formed (e e' : Engine) :
  step e e' -> well_formed e -> well_formed e'.
Proof.
  intros Hstep Hwf.
  destruct Hstep
    as [t e | e m r e' H | e m r e' H | e uid r e' H | now e uid r e' H
        | e q a url uid r e' H | e qid sc r e' H
        | now e uid time lim r e' H | e uid v r e' H].
  - now apply well_formed_same_tables.
  - eapply well_formed_add_user; eassumption.
  - apply get_user_id_store in H. now subst.
  - destruct (subscribe_user_store e uid) as (b & e1 & Hcall & Hstore).
    rewrite Hcall in H. injection H as _ <-.
    destruct Hstore as [->|[v ->]]; [exact Hwf|].
    replace (question_answers e)
      with (map (fun qa => qa) (question_answers e)) by apply map_id.
    apply well_formed_update; auto.
    + intros u. apply set_is_subscribed_id.
    + intros u. apply set_is_subscribed_max_id.
  - apply check_spam_store in H. now subst.
  - eapply well_formed_add_question_answer; eassumption.
  - apply rate_answer_store in H.
    destruct H as [->| ->]; [exact Hwf|].
    replace (users e) with (map (fun u => u) (users e)) by apply map_id.
    apply well_formed_update; auto. intros qa. apply set_score_id.
  - apply get_history_of_chat_store in H. now subst.
  - destruct (set_stop_point_store e uid v) as (e1 & Hcall & Hstore).
    destruct r. rewrite Hcall in H. injection H as <-.
    destruct Hstore as [->|[target ->]]; [exact Hwf|].
    replace (users e) with (map (fun u => u) (users e)) by apply map_id.
    apply well_formed_update; auto.
    intros qa. apply set_stop_point_field_id.
Qed.

(** X6.  Every store that calls of the module build from the empty store, in
    any order, with any arguments and at any times, is well formed: user ids
    and turn ids are present, unique and bounded by their sequences, and no
    two users share an external id. *)
Theorem reachable_well_formed (e : Engine) :
  reachable e -> well_formed e.
Proof.
  induction 1 as [|e e' _ IH Hstep].
  - unfold well_formed, empty_engine. simpl.
    repeat split; constructor.
  - eapply step_well_formed; eassumption.
Qed.

Lemma two_calls_reachable : reachable two_calls_engine.
Proof.
  eapply reachable_step.
  - eapply reachable_step; [apply reachable_empty|].
    apply (step_add_user empty_engine (Some 4711)
                         (true, 1)
                         (mkEngine [User.mk 1 (Some 4711) true 0 None] []
                                   1 0 0)).
    reflexivity.
  - apply (step_add_question_answer _ "question" "answer" None 1 1
                                    two_calls_engine).
    reflexivity.
Qed.

Lemma two_calls_engine_well_formed : well_formed two_calls_engine.
Proof.
  unfold well_formed, two_calls_engine. simpl.
  repeat split; try (constructor; [simpl; tauto|constructor]).
  - repeat constructor. simpl. lia.
  - repeat constructor. exists 1. split; [reflexivity|lia].
Qed.

Lemma reachable_well_formed_witness : well_formed two_calls_engine.
Proof.
  apply (reachable_well_formed two_calls_engine).
  exact two_calls_reachable.
Defined.

Lemma find_none_forall {A} (p : A -> bool) (l : list A) :
  Forall (fun x => p x = false) l -> find p l = None.
Proof.
  induction 1 as [|x l Hx _ IH]; simpl; [reflexivity|]. now rewrite Hx.
Qed.



(** ** Recording a turn and reading the history *)

Lemma insert_by_leb_snoc (y x : QuestionAnswer.t) (s : list QuestionAnswer.t) :
  QuestionAnswer.created_at y <= QuestionAnswer.created_at x ->
  insert_by Z.leb y (s ++ [x]) = insert_by Z.leb y s ++ [x].
Proof.
  intros Hyx. induction s as [|z s IH]; simpl.
  - destruct (Z.leb_spec (QuestionAnswer.created_at y)
                         (QuestionAnswer.created_at x)); [reflexivity|lia].
  - destruct (QuestionAnswer.created_at y <=? QuestionAnswer.created_at z);
      [reflexivity|]. now rewrite IH.
Qed.

(** A row at least as late as all others, stored last, is ordered last. *)
Lemma order_by_created_at_asc_snoc
  (x : QuestionAnswer.t) (l : list QuestionAnswer.t) :
  Forall (fun y => QuestionAnswer.created_at y <= QuestionAnswer.created_at x)
         l ->
  order_by_created_at_asc (l ++ [x]) = order_by_created_at_asc l ++ [x].
Proof.
  unfold order_by_created_at_asc.
  induction 1 as [|y l Hy _ IH]; simpl; [reflexivity|].
  rewrite IH. now apply insert_by_leb_snoc.
Qed.

(** The cap of [get_history_of_chat] keeps the last row for every
    [limit_pairs] that is not negative. *)
Lemma cap_keeps_last {A} (limit_pairs : Z) (l : list A) (x : A) :
  0 <= limit_pairs ->
  exists l',
    (if len (l ++ [x]) >? limit_pairs
     then slice_from (- limit_pairs) (l ++ [x])
     else l ++ [x])
    = l' ++ [x].
Proof.
  intros Hnn.
  destruct (Z.eq_dec limit_pairs 0) as [->|Hpos].
  - exists l. apply cap_zero.
  - rewrite cap_positive by lia. unfold most_recent.
    rewrite length_app. simpl List.length.
    exists (skipn (List.length l + 1 - Z.to_nat limit_pairs) l).
    rewrite skipn_app.
    replace (List.length l + 1 - Z.to_nat limit_pairs - List.length l)%nat
      with 0%nat by lia.
    reflexivity.
Qed.

Lemma recent_qa_after_add
  (now : Z) (e : Engine) (user : User.t) (time : Z) (qa : QuestionAnswer.t)
  (s1 s2 : Z) (t : Z) :
  QuestionAnswer.user_id qa = User.id user ->
  now - timedelta_minutes time <= QuestionAnswer.created_at qa ->
  Forall (fun old =>
            QuestionAnswer.user_id old = User.id user ->
            QuestionAnswer.created_at old < QuestionAnswer.created_at qa)
         (question_answers e) ->
  recent_qa now (mkEngine (users e) (question_answers e ++ [qa]) s1 s2 t)
            user time
  = recent_qa now e user time ++ [qa].
Proof.
  intros Huser Hwin Hold. unfold recent_qa. simpl question_answers.
  rewrite filter_app. simpl filter. rewrite Huser, Z.eqb_refl.
  destruct (Z.leb_spec (now - timedelta_minutes time)
                       (QuestionAnswer.created_at qa)) as [_|Hlt]; [|lia].
  simpl. apply order_by_created_at_asc_snoc.
  rewrite Forall_forall in *. intros old Hin.
  apply filter_In in Hin as [Hin Hcond].
  apply andb_true_iff in Hcond as [Hu _]. apply Z.eqb_eq in Hu.
  specialize (Hold _ Hin Hu). lia.
Qed.

Lemma sample_cutoff_representable : cutoff_representable 100000000 30.
Proof.
  unfold cutoff_representable, datetime_min, datetime_max.
  change (30 / 1440) with 0. lia.
Qed.

(** X8.  A turn just recorded is part of the history that is read next:
    when the user exists, every turn the user already has is older than the
    server's time, the cutoff [now - time] minutes can be computed and is not
    later than the server's time, and [limit_pairs] is not negative, then
    [add_question_answer] returns the new id and the list
    [get_history_of_chat] returns afterwards contains the new row, with that
    id, the question, answer and link given, the server's time, no score and
    no stop point. *)
Theorem add_question_answer_in_history
  (now : Z) (e : Engine) (question answer : string)
  (confluence_url : option string) (user_id : Z) (user : User.t)
  (time limit_pairs : Z) :
  user_with_id user_id e = Some user ->
  Forall (fun old =>
            QuestionAnswer.user_id old = user_id ->
            QuestionAnswer.created_at old < server_now e)
         (question_answers e) ->
  cutoff_representable now time ->
  now - timedelta_minutes time <= server_now e ->
  0 <= limit_pairs ->
  exists e' h,
    add_question_answer e question answer confluence_url user_id
    = Returned (question_answer_seq e + 1, e') /\
    get_history_of_chat now e' user_id time limit_pairs = Returned (h, e') /\
    In (QuestionAnswer.mk
          (Some (question_answer_seq e + 1))
          question (Some answer) confluence_url None user_id (server_now e)
          None false)
       h.
Proof.
  intros Hu Hold Hrep Hwin Hlimit.
  assert (User.id user = user_id) as Hid.
  { unfold user_with_id in Hu. apply find_some in Hu as [_ Hu].
    now apply Z.eqb_eq in Hu. }
  rewrite (add_question_answer_existing_user _ _ _ _ _ _ Hu).
  set (qa := QuestionAnswer.mk _ _ _ _ _ _ _ _ _).
  set (e' := mkEngine _ _ _ _ _).
  exists e'. eexists. split; [reflexivity|].
  assert (user_with_id user_id e' = Some user) as Hu' by exact Hu.
  rewrite (get_history_of_chat_unfold _ _ _ _ _ _ Hu' Hrep).
  split; [reflexivity|].
  unfold e'. rewrite recent_qa_after_add; simpl; try congruence.
  - assert (answer_ne_empty qa = negb (String.eqb answer EmptyString))
      as Hne by reflexivity.
    assert (answer_eq_empty qa = String.eqb answer EmptyString)
      as Heq by reflexivity.
    rewrite !filter_app. cbn [filter]. rewrite Hne, Heq.
    apply in_or_app.
    destruct (String.eqb answer EmptyString); cbn [negb].
    + right. apply in_or_app. right. now left.
    + left.
      destruct (cap_keeps_last limit_pairs
                  (filter answer_ne_empty (recent_qa now e user time)) qa
                  Hlimit) as [l' ->].
      apply in_or_app. right. now left.
  - eapply Forall_impl; [|exact Hold]. intros old H Holdu. apply H.
    congruence.
Qed.

Lemma add_question_answer_in_history_witness :
  exists e' h,
    add_question_answer window_engine "again" "answer" None 1
    = Returned (question_answer_seq window_engine + 1, e') /\
    get_history_of_chat 100000000 e' 1 30 5 = Returned (h, e') /\
    In (QuestionAnswer.mk
          (Some (question_answer_seq window_engine + 1))
          "again" (Some "answer"%string) None None 1
          (server_now window_engine) None false)
       h.
Proof.
  apply (add_question_answer_in_history 100000000 window_engine "again"
           "answer" None 1 sample_user 30 5).
  - reflexivity.
  - repeat constructor; simpl; lia.
  - exact sample_cutoff_representable.
  - unfold timedelta_minutes. simpl. lia.
  - lia.
Defined.

(** ** Closing a conversation with set_stop_point *)

Lemma insert_by_leb_last (x : QuestionAnswer.t) (s : list QuestionAnswer.t) :
  Forall (fun z => QuestionAnswer.created_at z < QuestionAnswer.created_at x)
         s ->
  insert_by Z.leb x s = s ++ [x].
Proof.
  induction 1 as [|z s Hz _ IH]; simpl; [reflexivity|].
  destruct (Z.leb_spec (QuestionAnswer.created_at x)
                       (QuestionAnswer.created_at z)); [lia|].
  now rewrite IH.
Qed.

(** The one row later than all others is ordered last, ascending ... *)
Lemma order_by_created_at_asc_latest
  (latest : QuestionAnswer.t) (before after : list QuestionAnswer.t) :
  Forall (fun z =>
            QuestionAnswer.created_at z < QuestionAnswer.created_at latest)
         (before ++ after) ->
  order_by_created_at_asc (before ++ latest :: after)
  = order_by_created_at_asc (before ++ after) ++ [latest].
Proof.
  induction before as [|b before IH]; simpl app; intros Hall.
  - unfold order_by_created_at_asc. simpl.
    apply insert_by_leb_last.
    eapply Permutation_Forall; [|exact Hall].
    symmetry. apply order_by_perm.
  - inversion Hall as [|? ? Hb Hrest]; subst.
    unfold order_by_created_at_asc in *. simpl.
    rewrite (IH Hrest). apply insert_by_leb_snoc. lia.
Qed.

(** ... and first, descending. *)
Lemma order_by_created_at_desc_latest
  (latest : QuestionAnswer.t) (before after : list QuestionAnswer.t) :
  Forall (fun z =>
            QuestionAnswer.created_at z < QuestionAnswer.created_at latest)
         (before ++ after) ->
  exists rest,
    order_by_created_at_desc (before ++ latest :: after) = latest :: rest.
Proof.
  unfold order_by_created_at_desc.
  induction before as [|b before IH]; simpl app; intros Hall.
  - simpl.
    destruct (order_by (fun a b => b <=? a) after) as [|z s] eqn:Hs;
      simpl; [now eexists|].
    assert (In z after) as Hz.
    { eapply Permutation_in; [apply order_by_perm|].
      rewrite Hs. now left. }
    rewrite Forall_forall in Hall. specialize (Hall _ Hz).
    destruct (Z.leb_spec (QuestionAnswer.created_at z)
                         (QuestionAnswer.created_at latest)); [|lia].
    now eexists.
  - inversion Hall as [|? ? Hb Hrest]; subst.
    destruct (IH Hrest) as [rest Hrest']. simpl. rewrite Hrest'. simpl.
    destruct (Z.leb_spec (QuestionAnswer.created_at latest)
                         (QuestionAnswer.created_at b)); [lia|].
    now eexists.
Qed.

(** Ordering commutes with an update that keeps [created_at]. *)
Lemma order_by_map (before : Z -> Z -> bool)
  (g : QuestionAnswer.t -> QuestionAnswer.t) (l : list QuestionAnswer.t) :
  (forall qa, QuestionAnswer.created_at (g qa) = QuestionAnswer.created_at qa) ->
  order_by before (map g l) = map g (order_by before l).
Proof.
  intros Hg.
  assert (forall x s,
             insert_by before (g x) (map g s) = map g (insert_by before x s))
    as Hins.
  { intros x s. induction s as [|z s IH]; simpl; [reflexivity|].
    rewrite !Hg. destruct (before _ _); simpl; [reflexivity|].
    now rewrite IH. }
  induction l as [|x l IH]; simpl; [reflexivity|].
  now rewrite IH, Hins.
Qed.

Lemma filter_map_commute {A} (p : A -> bool) (g : A -> A) (l : list A) :
  (forall x, p (g x) = p x) ->
  filter p (map g l) = map g (filter p l).
Proof.
  intros Hp. induction l as [|x l IH]; simpl; [reflexivity|].
  rewrite Hp. destruct (p x); simpl; now rewrite IH.
Qed.

Lemma answer_ne_empty_negb (qa : QuestionAnswer.t) :
  answer_ne_empty qa = negb (answer_eq_empty qa).
Proof.
  unfold answer_ne_empty, answer_eq_empty.
  now destruct (QuestionAnswer.answer qa).
Qed.

Lemma filter_chat_history_no_pairs (l : list QuestionAnswer.t) :
  (forall qa, In qa l -> answer_eq_empty qa = true) ->
  filter answer_ne_empty l = [].
Proof.
  induction l as [|x l IH]; intros H; simpl; [reflexivity|].
  rewrite answer_ne_empty_negb, (H x (or_introl eq_refl)). simpl.
  apply IH. intros qa Hqa. apply H. now right.
Qed.

(** A history that ends, after a stop point, in turns with an empty answer
    has no pair; what remains is some of those turns. *)
Lemma filter_chat_history_after_stop
  (pre suf : list QuestionAnswer.t) (stop : QuestionAnswer.t) :
  QuestionAnswer.stop_point stop = true ->
  Forall (fun qa => answer_eq_empty qa = true) suf ->
  exists unanswered,
    filter_chat_history (pre ++ stop :: suf) = Returned ([], unanswered) /\
    incl unanswered suf.
Proof.
  intros Hstop Hsuf.
  assert (incl (trimmed_history (pre ++ stop :: suf)) suf) as Hincl.
  { destruct (last_stop_point_split suf)
      as [Hnone|(b & s & suf' & -> & Hs & Hsuf')].
    - rewrite (trimmed_history_split _ _ _ Hstop Hnone). apply incl_refl.
    - replace (pre ++ stop :: b ++ s :: suf')
        with ((pre ++ stop :: b) ++ s :: suf')
        by (now rewrite <- app_assoc).
      rewrite (trimmed_history_split _ _ _ Hs Hsuf').
      intros x Hx. apply in_or_app. right. now right. }
  destruct (filter_chat_history_trimmed (pre ++ stop :: suf))
    as (unanswered & Hcall & Hempty & _).
  assert (filter answer_ne_empty (trimmed_history (pre ++ stop :: suf)) = [])
    as Hnopairs.
  { apply filter_chat_history_no_pairs. intros qa Hqa.
    rewrite Forall_forall in Hsuf. apply Hsuf. now apply Hincl. }
  rewrite Hnopairs in Hcall. exists unanswered. split; [exact Hcall|].
  rewrite (Hempty Hnopairs). intros x Hx.
  apply filter_In in Hx as [Hx _]. now apply Hincl.
Qed.

Lemma set_stop_point_field_keeps v now target qa :
  QuestionAnswer.user_id (set_stop_point_field v now target qa)
  = QuestionAnswer.user_id qa /\
  QuestionAnswer.created_at (set_stop_point_field v now target qa)
  = QuestionAnswer.created_at qa /\
  QuestionAnswer.answer (set_stop_point_field v now target qa)
  = QuestionAnswer.answer qa.
Proof.
  unfold set_stop_point_field. now destruct (same_row target qa).
Qed.

(** The query of [set_stop_point] finds the one turn of the user that is
    later than all the other ones. *)
Lemma latest_is_first
  (user_id : Z) (before after : list QuestionAnswer.t)
  (latest : QuestionAnswer.t) :
  QuestionAnswer.user_id latest = user_id ->
  Forall (fun qa =>
            QuestionAnswer.user_id qa = user_id ->
            QuestionAnswer.created_at qa < QuestionAnswer.created_at latest)
         (before ++ after) ->
  hd_error
    (order_by_created_at_desc
       (filter (fun qa => QuestionAnswer.user_id qa =? user_id)
               (before ++ latest :: after)))
  = Some latest.
Proof.
  intros Huser Hall. rewrite filter_app. simpl filter.
  rewrite Huser, Z.eqb_refl.
  destruct (order_by_created_at_desc_latest latest
              (filter (fun qa => QuestionAnswer.user_id qa =? user_id)
                      before)
              (filter (fun qa => QuestionAnswer.user_id qa =? user_id)
                      after)) as [rest ->]; [|reflexivity].
  rewrite <- filter_app. rewrite Forall_forall in *.
  intros qa Hin. apply filter_In in Hin as [Hin Hu].
  apply Z.eqb_eq in Hu. now apply Hall.
Qed.

Lemma same_row_id (target : option Z) (qa : QuestionAnswer.t) :
  same_row target qa = true -> QuestionAnswer.id qa = target.
Proof.
  unfold same_row, id_is. destruct target as [i|]; [|discriminate].
  destruct (QuestionAnswer.id qa) as [j|]; [|discriminate].
  intros H. apply Z.eqb_eq in H. now subst.
Qed.

(** When one turn of the user is later than all the other ones,
    [set_stop_point] addresses that turn: the turns afterwards are the old
    ones under an update [g] that keeps owner, time and answer of every row
    and leaves the latest turn with the requested flag. *)
Lemma set_stop_point_latest
  (e : Engine) (user_id : Z) (valbool : bool)
  (before after : list QuestionAnswer.t) (latest : QuestionAnswer.t) (i : Z) :
  question_answers e = before ++ latest :: after ->
  QuestionAnswer.user_id latest = user_id ->
  QuestionAnswer.id latest = Some i ->
  Forall (fun qa =>
            QuestionAnswer.user_id qa = user_id ->
            QuestionAnswer.created_at qa < QuestionAnswer.created_at latest)
         (before ++ after) ->
  exists e' g,
    set_stop_point e user_id valbool = Returned (tt, e') /\
    users e' = users e /\
    question_answers e' = map g (question_answers e) /\
    (forall qa,
        QuestionAnswer.user_id (g qa) = QuestionAnswer.user_id qa /\
        QuestionAnswer.created_at (g qa) = QuestionAnswer.created_at qa /\
        QuestionAnswer.answer (g qa) = QuestionAnswer.answer qa) /\
    QuestionAnswer.stop_point (g latest) = valbool /\
    (forall qa,
        QuestionAnswer.id qa <> QuestionAnswer.id latest -> g qa = qa).
Proof.
  intros Hqas Huser Hid Hall.
  pose proof (latest_is_first user_id before after latest Huser Hall) as Hhd.
  rewrite <- Hqas in Hhd.
  unfold set_stop_point, bind, first_question_answer_where_user_id_desc.
  rewrite Hhd. unfold commit_stop_point.
  destruct (Bool.eqb (QuestionAnswer.stop_point latest) valbool) eqn:Hflag.
  - exists e, (fun qa => qa). split; [reflexivity|]. split; [reflexivity|].
    split; [now rewrite map_id|]. split; [auto|].
    split; [now apply Bool.eqb_prop|auto].
  - eexists.
    exists (set_stop_point_field valbool (server_now e)
                                 (QuestionAnswer.id latest)).
    split; [reflexivity|]. split; [reflexivity|]. split; [reflexivity|].
    split; [intros qa; apply set_stop_point_field_keeps|]. split.
    + unfold set_stop_point_field, same_row, id_is.
      rewrite Hid, Z.eqb_refl. reflexivity.
    + intros qa Hqa. unfold set_stop_point_field.
      destruct (same_row (QuestionAnswer.id latest) qa) eqn:Hrow;
        [|reflexivity].
      now apply same_row_id in Hrow.
Qed.

Lemma recent_qa_map
  (now : Z) (e e' : Engine) (user : User.t) (time : Z)
  (g : QuestionAnswer.t -> QuestionAnswer.t) :
  question_answers e' = map g (question_answers e) ->
  (forall qa,
      QuestionAnswer.user_id (g qa) = QuestionAnswer.user_id qa /\
      QuestionAnswer.created_at (g qa) = QuestionAnswer.created_at qa /\
      QuestionAnswer.answer (g qa) = QuestionAnswer.answer qa) ->
  recent_qa now e' user time = map g (recent_qa now e user time).
Proof.
  intros Hqas Hg. unfold recent_qa, order_by_created_at_asc. rewrite Hqas.
  rewrite filter_map_commute.
  - apply order_by_map. intros qa. apply Hg.
  - intros qa. destruct (Hg qa) as (-> & -> & _). reflexivity.
Qed.

(** The window of a user whose latest turn is [latest]. *)
Lemma recent_qa_latest
  (now : Z) (e : Engine) (user : User.t) (time : Z)
  (before after : list QuestionAnswer.t) (latest : QuestionAnswer.t) :
  question_answers e = before ++ latest :: after ->
  QuestionAnswer.user_id latest = User.id user ->
  Forall (fun qa =>
            QuestionAnswer.user_id qa = User.id user ->
            QuestionAnswer.created_at qa < QuestionAnswer.created_at latest)
         (before ++ after) ->
  recent_qa now e user time = [] \/
  exists older,
    recent_qa now e user time = older ++ [latest] /\
    Forall (fun qa =>
              QuestionAnswer.created_at qa < QuestionAnswer.created_at latest)
           older.
Proof.
  intros Hqas Huser Hall. unfold recent_qa. rewrite Hqas, filter_app.
  set (win := fun qa => (QuestionAnswer.user_id qa =? User.id user)
                        && (now - timedelta_minutes time
                            <=? QuestionAnswer.created_at qa)).
  assert (Forall (fun qa => QuestionAnswer.created_at qa
                            < QuestionAnswer.created_at latest)
                 (filter win before ++ filter win after)) as Holder.
  { rewrite <- filter_app. rewrite Forall_forall in *.
    intros qa Hin. apply filter_In in Hin as [Hin Hw].
    apply andb_true_iff in Hw as [Hu _]. apply Z.eqb_eq in Hu.
    now apply Hall. }
  simpl filter. destruct (win latest) eqn:Hw.
  - right. exists (order_by_created_at_asc (filter win before ++ filter win after)).
    split; [now apply order_by_created_at_asc_latest|].
    eapply Permutation_Forall; [|exact Holder].
    symmetry. apply order_by_created_at_asc_perm.
  - left.
    assert (filter win before ++ filter win after = []) as ->; [|reflexivity].
    rewrite <- filter_app.
    assert (forall l, Forall (fun qa => win qa = false) l -> filter win l = [])
      as Hnone.
    { induction 1 as [|x l Hx _ IH]; simpl; [reflexivity|]. now rewrite Hx. }
    apply Hnone. rewrite Forall_forall in *. intros qa Hin.
    unfold win in *. rewrite Huser, Z.eqb_refl in Hw. simpl in Hw.
    apply Z.leb_gt in Hw.
    destruct (Z.eqb_spec (QuestionAnswer.user_id qa) (User.id user))
      as [Hu|_]; [|reflexivity].
    simpl. apply Z.leb_gt. specialize (Hall _ Hin Hu). lia.
Qed.

(** X9.  Closing a conversation empties the pairs of the active context.
    When a user's latest turn (later than every other turn of the user, and
    carrying an id) is marked by [set_stop_point(.., True)], then for every
    window whose cutoff [now - time] minutes can be computed and every
    [limit_pairs] that is not negative, [get_history_of_chat] returns and
    [filter_chat_history] of what it returns has no pair.
    The unanswered turns it still returns all have an empty answer and are
    all older than the marked turn; there is none when the marked turn itself
    has an empty answer. *)
Theorem set_stop_point_closes_conversation
  (now : Z) (e : Engine) (user_id : Z) (user : User.t) (time limit_pairs : Z)
  (before after : list QuestionAnswer.t) (latest : QuestionAnswer.t) (i : Z) :
  user_with_id user_id e = Some user ->
  question_answers e = before ++ latest :: after ->
  QuestionAnswer.user_id latest = user_id ->
  QuestionAnswer.id latest = Some i ->
  Forall (fun qa =>
            QuestionAnswer.user_id qa = user_id ->
            QuestionAnswer.created_at qa < QuestionAnswer.created_at latest)
         (before ++ after) ->
  cutoff_representable now time ->
  0 <= limit_pairs ->
  exists e' h unanswered,
    set_stop_point e user_id true = Returned (tt, e') /\
    get_history_of_chat now e' user_id time limit_pairs = Returned (h, e') /\
    filter_chat_history h = Returned ([], unanswered) /\
    Forall (fun qa =>
              answer_eq_empty qa = true /\
              QuestionAnswer.created_at qa < QuestionAnswer.created_at latest)
           unanswered /\
    (answer_eq_empty latest = true -> unanswered = []).
Proof.
  intros Hu Hqas Huser Hid Hall Hrep Hlimit.
  assert (User.id user = user_id) as Huid.
  { unfold user_with_id in Hu. apply find_some in Hu as [_ Hu].
    now apply Z.eqb_eq in Hu. }
  destruct (set_stop_point_latest e user_id true before after latest i
              Hqas Huser Hid Hall)
    as (e' & g & Hcall & Husers & Hqas' & Hg & Hstop & _).
  assert (user_with_id user_id e' = Some user) as Hu'
      by (unfold user_with_id; now rewrite Husers).
  exists e'. rewrite (get_history_of_chat_unfold _ _ _ _ _ _ Hu' Hrep).
  rewrite (recent_qa_map now e e' user time g Hqas' Hg).
  assert (forall qa, answer_eq_empty (g qa) = answer_eq_empty qa) as Heq.
  { intros qa. unfold answer_eq_empty. now destruct (Hg qa) as (_ & _ & ->). }
  assert (QuestionAnswer.user_id latest = User.id user) as Huser'
      by congruence.
  rewrite <- Huid in Hall.
  destruct (recent_qa_latest now e user time before after latest
              Hqas Huser' Hall) as [->|(older & -> & Holder)].
  - simpl map. simpl filter.
    destruct (len (@nil QuestionAnswer.t) >? limit_pairs) eqn:Hgt.
    + apply Z.gtb_lt in Hgt. unfold len in Hgt. simpl in Hgt. lia.
    + exists [], []. repeat split; auto.
  - rewrite map_app, !filter_app. simpl map. cbn [filter].
    rewrite (answer_ne_empty_negb (g latest)), Heq.
    assert (Forall (fun qa =>
                      answer_eq_empty qa = true /\
                      QuestionAnswer.created_at qa
                      < QuestionAnswer.created_at latest)
                   (filter answer_eq_empty (map g older))) as Hsuf.
    { rewrite Forall_forall in *. intros qa Hin.
      apply filter_In in Hin as [Hin Hqa]. split; [exact Hqa|].
      apply in_map_iff in Hin as (old & <- & Hold).
      destruct (Hg old) as (_ & -> & _). now apply Holder. }
    destruct (answer_eq_empty latest) eqn:Hlatest; cbn [negb].
    + rewrite app_nil_r, app_assoc.
      destruct (filter_chat_history_after_stop
                  ((if len (filter answer_ne_empty (map g older))
                       >? limit_pairs
                    then slice_from (- limit_pairs)
                           (filter answer_ne_empty (map g older))
                    else filter answer_ne_empty (map g older))
                   ++ filter answer_eq_empty (map g older))
                  [] (g latest) Hstop (Forall_nil _))
        as (unanswered & Hfch & Hincl).
      destruct unanswered as [|x ?]; [|destruct (Hincl x); now left].
      eexists. exists []. repeat split; auto.
    + rewrite app_nil_r.
      destruct (cap_keeps_last limit_pairs
                  (filter answer_ne_empty (map g older)) (g latest) Hlimit)
        as [kept ->].
      rewrite <- app_assoc. simpl app.
      destruct (filter_chat_history_after_stop kept
                  (filter answer_eq_empty (map g older)) (g latest) Hstop)
        as (unanswered & Hfch & Hincl).
      { eapply Forall_impl; [|exact Hsuf]. now intros qa [H _]. }
      eexists. exists unanswered. repeat split; auto; try discriminate.
      rewrite Forall_forall in *. intros qa Hin. apply Hsuf.
      now apply Hincl.
Qed.

Lemma set_stop_point_closes_conversation_witness :
  exists e' h unanswered,
    set_stop_point window_engine 1 true = Returned (tt, e') /\
    get_history_of_chat 100000000 e' 1 30 5 = Returned (h, e') /\
    filter_chat_history h = Returned ([], unanswered) /\
    Forall (fun qa =>
              answer_eq_empty qa = true /\
              QuestionAnswer.created_at qa
              < QuestionAnswer.created_at (open_turn 5 50000000))
           unanswered /\
    (answer_eq_empty (open_turn 5 50000000) = true -> unanswered = []).
Proof.
  apply (set_stop_point_closes_conversation 100000000 window_engine 1
           sample_user 30 5
           [answered_turn 1 10000000; answered_turn 2 20000000;
            answered_turn 3 30000000; answered_turn 4 40000000]
           [] (open_turn 5 50000000) 5).
  - reflexivity.
  - reflexivity.
  - reflexivity.
  - reflexivity.
  - repeat constructor; simpl; lia.
  - exact sample_cutoff_representable.
  - lia.
Defined.

(** X10.  [set_stop_point] writes the flag where the next call reads it:
    when one turn of the user is later than all the other ones and carries an
    id, then after [set_stop_point(.., valbool)] the latest turn of the user
    is that same turn (same id, question, answer, link, score, owner and
    creation time) with [stop_point] equal to [valbool]; the user table is
    untouched. *)
Theorem set_stop_point_marks_latest
  (e : Engine) (user_id : Z) (valbool : bool)
  (before after : list QuestionAnswer.t) (latest : QuestionAnswer.t) (i : Z) :
  question_answers e = before ++ latest :: after ->
  QuestionAnswer.user_id latest = user_id ->
  QuestionAnswer.id latest = Some i ->
  Forall (fun qa =>
            QuestionAnswer.user_id qa = user_id ->
            QuestionAnswer.created_at qa < QuestionAnswer.created_at latest)
         (before ++ after) ->
  exists e' latest',
    set_stop_point e user_id valbool = Returned (tt, e') /\
    users e' = users e /\
    first_question_answer_where_user_id_desc user_id e'
    = Returned (Some latest', e') /\
    QuestionAnswer.stop_point latest' = valbool /\
    QuestionAnswer.id latest' = QuestionAnswer.id latest /\
    QuestionAnswer.question latest' = QuestionAnswer.question latest /\
    QuestionAnswer.answer latest' = QuestionAnswer.answer latest /\
    QuestionAnswer.confluence_url latest'
    = QuestionAnswer.confluence_url latest /\
    QuestionAnswer.score latest' = QuestionAnswer.score latest /\
    QuestionAnswer.user_id latest' = QuestionAnswer.user_id latest /\
    QuestionAnswer.created_at latest' = QuestionAnswer.created_at latest.
Proof.
  intros Hqas Huser Hid Hall.
  assert (forall qas,
             qas = before ++ latest :: after ->
             hd_error
               (order_by_created_at_desc
                  (filter (fun qa => QuestionAnswer.user_id qa =? user_id)
                          qas))
             = Some latest) as Hhd
      by (intros qas ->; now apply latest_is_first).
  unfold set_stop_point, bind, first_question_answer_where_user_id_desc.
  rewrite (Hhd _ Hqas). unfold commit_stop_point.
  destruct (Bool.eqb (QuestionAnswer.stop_point latest) valbool) eqn:Hflag.
  - exists e, latest. rewrite (Hhd _ Hqas).
    apply Bool.eqb_prop in Hflag. repeat split; auto.
  - set (g := set_stop_point_field valbool (server_now e)
                                   (QuestionAnswer.id latest)).
    eexists. exists (g latest). split; [reflexivity|].
    split; [reflexivity|]. simpl question_answers.
    rewrite filter_map_commute
      by (intros qa; unfold g;
          now destruct (set_stop_point_field_keeps
                          valbool (server_now e) (QuestionAnswer.id latest)
                          qa) as (-> & _)).
    unfold order_by_created_at_desc.
    rewrite order_by_map
      by (intros qa; unfold g; apply set_stop_point_field_keeps).
    fold order_by_created_at_desc.
    destruct (order_by_created_at_desc _) as [|x rest] eqn:Hsorted.
    + specialize (Hhd _ Hqas). rewrite Hsorted in Hhd. discriminate.
    + specialize (Hhd _ Hqas). rewrite Hsorted in Hhd.
      injection Hhd as ->. split; [reflexivity|].
      unfold g, set_stop_point_field, same_row, id_is.
      rewrite Hid, Z.eqb_refl. simpl. repeat split.
Qed.

Lemma set_stop_point_marks_latest_witness :
  exists e' latest',
    set_stop_point window_engine 1 true = Returned (tt, e') /\
    users e' = users window_engine /\
    first_question_answer_where_user_id_desc 1 e'
    = Returned (Some latest', e') /\
    QuestionAnswer.stop_point latest' = true /\
    QuestionAnswer.id latest' = QuestionAnswer.id (open_turn 5 50000000) /\
    QuestionAnswer.question latest'
    = QuestionAnswer.question (open_turn 5 50000000) /\
    QuestionAnswer.answer latest'
    = QuestionAnswer.answer (open_turn 5 50000000) /\
    QuestionAnswer.confluence_url latest'
    = QuestionAnswer.confluence_url (open_turn 5 50000000) /\
    QuestionAnswer.score latest'
    = QuestionAnswer.score (open_turn 5 50000000) /\
    QuestionAnswer.user_id latest'
    = QuestionAnswer.user_id (open_turn 5 50000000) /\
    QuestionAnswer.created_at latest'
    = QuestionAnswer.created_at (open_turn 5 50000000).
Proof.
  apply (set_stop_point_marks_latest window_engine 1 true
           [answered_turn 1 10000000; answered_turn 2 20000000;
            answered_turn 3 30000000; answered_turn 4 40000000]
           [] (open_turn 5 50000000) 5).
  - reflexivity.
  - reflexivity.
  - reflexivity.
  - repeat constructor; simpl; lia.
Defined.

Lemma NoDup_map_eq {A B} (f : A -> B) (l : list A) (x y : A) :
  NoDup (map f l) -> In x l -> In y l -> f x = f y -> x = y.
Proof.
  induction l as [|z l IH]; simpl; [tauto|].
  intros Hnd Hx Hy Hf. inversion Hnd as [|? ? Hnotin Hnd']; subst.
  destruct Hx as [->|Hx], Hy as [->|Hy]; auto.
  - exfalso. apply Hnotin. rewrite Hf. now apply in_map.
  - exfalso. apply Hnotin. rewrite <- Hf. now apply in_map.
Qed.

Lemma filter_map_fixed {A} (p : A -> bool) (g : A -> A) (l : list A) :
  (forall x, In x l -> p x = true -> g x = x) ->
  (forall x, p (g x) = p x) ->
  filter p (map g l) = filter p l.
Proof.
  intros Hfix Hp. induction l as [|x l IH]; simpl; [reflexivity|].
  rewrite Hp. destruct (p x) eqn:Hx.
  - rewrite (Hfix x (or_introl eq_refl) Hx). f_equal.
    apply IH. intros y Hy. apply Hfix. now right.
  - apply IH. intros y Hy. apply Hfix. now right.
Qed.

(** X11.  [set_stop_point] never raises and never touches the user table.
    For a user without turns it changes nothing at all.  In a well-formed
    store it keeps the number of turns and leaves the turns of every other
    user exactly as they were. *)
Theorem set_stop_point_frame
  (e : Engine) (user_id : Z) (valbool : bool) (other : User.t) :
  well_formed e ->
  User.id other <> user_id ->
  exists e',
    set_stop_point e user_id valbool = Returned (tt, e') /\
    users e' = users e /\
    turns_of e' other = turns_of e other /\
    List.length (question_answers e') = List.length (question_answers e) /\
    (filter (fun qa => QuestionAnswer.user_id qa =? user_id)
            (question_answers e) = [] ->
     e' = e).
Proof.
  intros (_ & _ & _ & Hnodup & _) Hother.
  unfold set_stop_point, bind, first_question_answer_where_user_id_desc.
  set (mine := filter (fun qa => QuestionAnswer.user_id qa =? user_id)
                      (question_answers e)).
  destruct (hd_error (order_by_created_at_desc mine))
    as [last_message|] eqn:Hhd.
  - assert (In last_message (question_answers e) /\
            QuestionAnswer.user_id last_message = user_id) as [Hin Hmine].
    { assert (In last_message mine) as H.
      { eapply Permutation_in; [apply order_by_created_at_desc_perm|].
        destruct (order_by_created_at_desc mine); [discriminate|].
        injection Hhd as ->. now left. }
      apply filter_In in H as [H1 H2]. split; [exact H1|].
      now apply Z.eqb_eq. }
    assert (mine <> []) as Hne.
    { intros Hnil. rewrite Hnil in Hhd. discriminate. }
    unfold commit_stop_point.
    destruct (Bool.eqb (QuestionAnswer.stop_point last_message) valbool).
    + exists e. repeat split; auto.
    + eexists. split; [reflexivity|]. simpl. split; [reflexivity|].
      split; [|split; [apply length_map | intros Hnil; contradiction]].
      unfold turns_of. simpl question_answers.
      apply filter_map_fixed.
      * intros qa Hqa Hu. apply Z.eqb_eq in Hu.
        unfold set_stop_point_field.
        destruct (same_row (QuestionAnswer.id last_message) qa) eqn:Hrow;
          [|reflexivity].
        apply same_row_id in Hrow.
        assert (qa = last_message)
          by (eapply NoDup_map_eq; eassumption).
        subst qa. congruence.
      * intros qa.
        now destruct (set_stop_point_field_keeps
                        valbool (server_now e)
                        (QuestionAnswer.id last_message) qa) as (-> & _).
  - exists e. repeat split; auto.
Qed.

Lemma set_stop_point_frame_witness :
  exists e',
    set_stop_point two_calls_engine 1 true = Returned (tt, e') /\
    users e' = users two_calls_engine /\
    turns_of e' (User.mk 2 None true 0 None)
    = turns_of two_calls_engine (User.mk 2 None true 0 None) /\
    List.length (question_answers e')
    = List.length (question_answers two_calls_engine) /\
    (filter (fun qa => QuestionAnswer.user_id qa =? 1)
            (question_answers two_calls_engine) = [] ->
     e' = two_calls_engine).
Proof.
  apply (set_stop_point_frame two_calls_engine 1 true
                              (User.mk 2 None true 0 None)).
  - exact two_calls_engine_well_formed.
  - simpl. lia.
Defined.

(** ** rate_answer *)

Lemma find_set_score (v : option Z) (now q : Z) (l : list QuestionAnswer.t) :
  find (id_is q) (map (set_score v now (Some q)) l)
  = option_map (set_score v now (Some q)) (find (id_is q) l).
Proof.
  induction l as [|x l IH]; simpl; [reflexivity|].
  unfold id_is at 1. rewrite set_score_id. fold (id_is q x).
  now destruct (id_is q x).
Qed.

Lemma find_other_set_score
  (v : option Z) (now q q' : Z) (l : list QuestionAnswer.t) :
  q' <> q ->
  find (id_is q') (map (set_score v now (Some q)) l) = find (id_is q') l.
Proof.
  intros Hneq. induction l as [|x l IH]; simpl; [reflexivity|].
  unfold id_is at 1. rewrite set_score_id. fold (id_is q' x).
  destruct (id_is q' x) eqn:Hx; [|exact IH].
  unfold set_score, same_row.
  destruct (id_is q x) eqn:Hq; [|reflexivity].
  unfold id_is in Hx, Hq. destruct (QuestionAnswer.id x); [|discriminate].
  apply Z.eqb_eq in Hx, Hq. congruence.
Qed.

Lemma score_is_true (v : Z) (qa : QuestionAnswer.t) :
  score_is v qa = true <-> QuestionAnswer.score qa = Some v.
Proof.
  unfold score_is. destruct (QuestionAnswer.score qa) as [w|].
  - rewrite Z.eqb_eq. split; congruence.
  - split; discriminate.
Qed.

Lemma fits_integer_true (v : Z) :
  fits_integer v = true <-> -2147483648 <= v <= 2147483647.
Proof.
  unfold fits_integer. rewrite andb_true_iff, !Z.leb_le. tauto.
Qed.

(** X12.  [rate_answer] by cases.  When no turn carries the id it returns
    [False] and leaves the store as it is.  When a turn carries it and the
    score fits a 32-bit integer (or is the score the turn already has), it
    returns [True], and the turn then found under the id is the one found
    before with the given score: id, question, answer, link, owner, creation
    time and stop point are kept, the user table is untouched, and every
    other id finds what it found before.  When a turn carries the id and the
    score is a new one that does not fit, the UPDATE is refused: the call
    raises [DataError]. *)
Theorem rate_answer_spec (e : Engine) (question_answer_id score : Z) :
  match find (id_is question_answer_id) (question_answers e) with
  | None =>
      rate_answer e question_answer_id score = Returned (false, e)
  | Some qa =>
      (QuestionAnswer.score qa = Some score \/
       -2147483648 <= score <= 2147483647 ->
       exists e' rated,
         rate_answer e question_answer_id score = Returned (true, e') /\
         find (id_is question_answer_id) (question_answers e') = Some rated /\
         QuestionAnswer.score rated = Some score /\
         QuestionAnswer.id rated = Some question_answer_id /\
         QuestionAnswer.question rated = QuestionAnswer.question qa /\
         QuestionAnswer.answer rated = QuestionAnswer.answer qa /\
         QuestionAnswer.confluence_url rated
         = QuestionAnswer.confluence_url qa /\
         QuestionAnswer.user_id rated = QuestionAnswer.user_id qa /\
         QuestionAnswer.created_at rated = QuestionAnswer.created_at qa /\
         QuestionAnswer.stop_point rated = QuestionAnswer.stop_point qa /\
         users e' = users e /\
         forall other,
           other <> question_answer_id ->
           find (id_is other) (question_answers e')
           = find (id_is other) (question_answers e)) /\
      (QuestionAnswer.score qa <> Some score ->
       ~ (-2147483648 <= score <= 2147483647) ->
       rate_answer e question_answer_id score = Raised DataError)
  end.
Proof.
  destruct (find (id_is question_answer_id) (question_answers e))
    as [qa|] eqn:Hfind;
    unfold rate_answer, bind, first_question_answer_where_id;
    rewrite Hfind; [|reflexivity].
  assert (QuestionAnswer.id qa = Some question_answer_id) as Hid.
  { apply find_some in Hfind as [_ H]. unfold id_is in H.
    destruct (QuestionAnswer.id qa); [|discriminate].
    apply Z.eqb_eq in H. now subst. }
  unfold commit_score. destruct (score_is score qa) eqn:Hscore.
  - apply score_is_true in Hscore. split.
    + intros _. exists e, qa. repeat split; auto.
    + intros Hne. contradiction.
  - assert (QuestionAnswer.score qa <> Some score) as Hne.
    { intros H. apply score_is_true in H. congruence. }
    destruct (fits_integer score) eqn:Hfits.
    + split.
      * intros _. rewrite Hid. eexists.
        exists (set_score (Some score) (server_now e)
                          (Some question_answer_id) qa).
        split; [reflexivity|]. simpl question_answers. simpl users.
        rewrite find_set_score, Hfind. split; [reflexivity|].
        unfold set_score at 1 2 3 4 5 6 7 8, same_row, id_is.
        rewrite Hid, Z.eqb_refl. simpl.
        repeat split; auto.
        intros other Hother. now apply find_other_set_score.
      * intros _ Hout. apply fits_integer_true in Hfits. contradiction.
    + split; [|reflexivity].
      intros [Heq|Hin]; [contradiction|].
      apply fits_integer_true in Hin. congruence.
Qed.

Lemma find_id_is_fresh (s : Z) (l : list QuestionAnswer.t) :
  Forall (fun qa => exists i, QuestionAnswer.id qa = Some i /\ i <= s) l ->
  find (id_is (s + 1)) l = None.
Proof.
  intros H. apply find_none_forall. eapply Forall_impl; [|exact H].
  intros qa (i & Hi & Hle). unfold id_is. rewrite Hi.
  apply Z.eqb_neq. lia.
Qed.

(** X13.  The id [add_question_answer] returns is good for rating: in a
    well-formed store, for an existing user and a score that fits a 32-bit
    integer, [add_question_answer] returns an id, [rate_answer] with that id,
    at any later time, returns [True], and the turn then found under that id
    is the turn just recorded (question, answer, link and owner as given)
    with the score. *)
Theorem add_question_answer_then_rate_answer
  (e : Engine) (question answer : string) (confluence_url : option string)
  (user_id : Z) (user : User.t) (score : Z) (later : Z) :
  well_formed e ->
  user_with_id user_id e = Some user ->
  -2147483648 <= score <= 2147483647 ->
  exists i e1 e2 rated,
    add_question_answer e question answer confluence_url user_id
    = Returned (i, e1) /\
    rate_answer (with_clock later e1) i score = Returned (true, e2) /\
    find (id_is i) (question_answers e2) = Some rated /\
    QuestionAnswer.question rated = question /\
    QuestionAnswer.answer rated = Some answer /\
    QuestionAnswer.confluence_url rated = confluence_url /\
    QuestionAnswer.user_id rated = user_id /\
    QuestionAnswer.score rated = Some score.
Proof.
  intros (_ & _ & _ & _ & Hbound) Hu Hscore.
  rewrite (add_question_answer_existing_user _ _ _ _ _ _ Hu).
  set (i := question_answer_seq e + 1).
  set (qa := QuestionAnswer.mk (Some i) question (Some answer)
                               confluence_url None user_id (server_now e)
                               None false).
  set (e1 := mkEngine _ _ _ _ _).
  exists i, e1.
  assert (find (id_is i) (question_answers (with_clock later e1))
          = Some qa) as Hfind.
  { unfold with_clock, e1. simpl question_answers.
    apply find_app_new; [now apply find_id_is_fresh|].
    unfold id_is, qa. simpl. apply Z.eqb_refl. }
  unfold rate_answer, bind, first_question_answer_where_id.
  rewrite Hfind. unfold commit_score.
  assert (score_is score qa = false) as -> by reflexivity.
  apply fits_integer_true in Hscore. rewrite Hscore.
  eexists.
  exists (set_score (Some score) later (Some i) qa).
  split; [reflexivity|]. split; [reflexivity|].
  simpl question_answers. simpl server_now.
  change (QuestionAnswer.id qa) with (Some i).
  rewrite find_set_score.
  change (question_answers e ++ [qa])
    with (question_answers (with_clock later e1)).
  rewrite Hfind. split; [reflexivity|].
  unfold set_score, same_row, id_is, qa. simpl. rewrite Z.eqb_refl.
  simpl. repeat split.
Qed.

Lemma add_question_answer_then_rate_answer_witness :
  exists i e1 e2 rated,
    add_question_answer two_calls_engine "again" "answer" None 1
    = Returned (i, e1) /\
    rate_answer (with_clock 7 e1) i 5 = Returned (true, e2) /\
    find (id_is i) (question_answers e2) = Some rated /\
    QuestionAnswer.question rated = "again"%string /\
    QuestionAnswer.answer rated = Some "answer"%string /\
    QuestionAnswer.confluence_url rated = None /\
    QuestionAnswer.user_id rated = 1 /\
    QuestionAnswer.score rated = Some 5.
Proof.
  apply (add_question_answer_then_rate_answer two_calls_engine "again"
           "answer" None 1 (User.mk 1 (Some 4711) true 0 None) 5 7).
  - exact two_calls_engine_well_formed.
  - reflexivity.
  - lia.
Defined.

(** ** What get_history_of_chat returns *)

Lemma in_skipn {A} (x : A) (n : nat) (l : list A) :
  In x (skipn n l) -> In x l.
Proof.
  intros H. rewrite <- (firstn_skipn n l). apply in_or_app. now right.
Qed.

Lemma in_slice_from {A} (x : A) (start : Z) (l : list A) :
  In x (slice_from start l) -> In x l.
Proof.
  unfold slice_from. destruct (start <? 0); apply in_skipn.
Qed.

(** X14.  [get_history_of_chat] never writes and, whatever the sign of
    [limit_pairs], raises only from its [datetime] arithmetic.  For a user id
    without a row it returns the empty list.  For an existing user whose
    cutoff [now - time] minutes can be computed it returns a list, and every
    row of it is a stored turn of that user created at or after the cutoff;
    when the cutoff cannot be computed it raises [OverflowError]. *)
Theorem get_history_of_chat_sound
  (now : Z) (e : Engine) (user_id time limit_pairs : Z) :
  match user_with_id user_id e with
  | None =>
      get_history_of_chat now e user_id time limit_pairs = Returned ([], e)
  | Some _ =>
      (cutoff_representable now time ->
       exists h,
         get_history_of_chat now e user_id time limit_pairs
         = Returned (h, e) /\
         Forall (fun qa =>
                   In qa (question_answers e) /\
                   QuestionAnswer.user_id qa = user_id /\
                   now - timedelta_minutes time
                   <= QuestionAnswer.created_at qa)
                h) /\
      (~ cutoff_representable now time ->
       get_history_of_chat now e user_id time limit_pairs
       = Raised OverflowError)
  end.
Proof.
  destruct (user_with_id user_id e) as [user|] eqn:Hu.
  - split; [|now apply get_history_of_chat_overflow with (user := user)].
    intros Hrep.
    rewrite (get_history_of_chat_unfold _ _ _ _ _ _ Hu Hrep).
    eexists. split; [reflexivity|].
    assert (User.id user = user_id) as Hid.
    { unfold user_with_id in Hu. apply find_some in Hu as [_ Hu].
      now apply Z.eqb_eq in Hu. }
    assert (forall qa,
               In qa (recent_qa now e user time) ->
               In qa (question_answers e) /\
               QuestionAnswer.user_id qa = user_id /\
               now - timedelta_minutes time <= QuestionAnswer.created_at qa)
      as Hrecent.
    { intros qa Hin. unfold recent_qa in Hin.
      apply (Permutation_in _ (order_by_created_at_asc_perm _)) in Hin.
      apply filter_In in Hin as [Hin Hcond].
      apply andb_true_iff in Hcond as [H1 H2].
      apply Z.eqb_eq in H1. apply Z.leb_le in H2.
      repeat split; [exact Hin | congruence | exact H2]. }
    rewrite Forall_forall. intros qa Hin. apply Hrecent.
    apply in_app_or in Hin as [Hin|Hin].
    + destruct (len _ >? limit_pairs).
      * apply in_slice_from in Hin. now apply filter_In in Hin.
      * now apply filter_In in Hin.
    + now apply filter_In in Hin.
  - now apply get_history_of_chat_unknown_user.
Qed.

(** X15.  For a positive [limit_pairs], an existing user and a cutoff
    [now - time] minutes that can be computed, the result of
    [get_history_of_chat] is the last [limit_pairs] in-window rows whose
    answer is not the empty string, followed by every in-window row whose
    answer is the empty string; both parts are ascending by [created_at]. *)
Theorem get_history_of_chat_positive_limit_spec
  (now : Z) (e : Engine) (user_id time limit_pairs : Z) (user : User.t) :
  0 < limit_pairs ->
  user_with_id user_id e = Some user ->
  cutoff_representable now time ->
  let recent := recent_qa now e user time in
  let full_pairs :=
    most_recent (Z.to_nat limit_pairs) (filter answer_ne_empty recent) in
  let unanswered := filter answer_eq_empty recent in
  get_history_of_chat now e user_id time limit_pairs
  = Returned (full_pairs ++ unanswered, e) /\
  oldest_first full_pairs /\ oldest_first unanswered /\
  (List.length full_pairs <= Z.to_nat limit_pairs)%nat.
Proof.
  intros Hpos Hu Hrep recent full_pairs unanswered.
  destruct (get_history_of_chat_positive_limit now e user_id time limit_pairs
              user Hpos Hu Hrep) as (Hcall & Hs1 & Hs2).
  repeat split; try assumption.
  unfold full_pairs, most_recent. rewrite length_skipn. lia.
Qed.

Lemma get_history_of_chat_positive_limit_spec_witness :
  let recent := recent_qa 100000000 window_engine sample_user 30 in
  let full_pairs :=
    most_recent (Z.to_nat 2) (filter answer_ne_empty recent) in
  let unanswered := filter answer_eq_empty recent in
  get_history_of_chat 100000000 window_engine 1 30 2
  = Returned (full_pairs ++ unanswered, window_engine) /\
  oldest_first full_pairs /\ oldest_first unanswered /\
  (List.length full_pairs <= Z.to_nat 2)%nat.
Proof.
  apply (get_history_of_chat_positive_limit_spec 100000000 window_engine 1
           30 2 sample_user).
  - lia.
  - reflexivity.
  - exact sample_cutoff_representable.
Defined.

(** X16.  With [limit_pairs = 0] the cap is not applied: on every store the
    result for an existing user, when the cutoff [now - time] minutes can be
    computed, is all in-window rows whose answer is not the empty string
    (however many), followed by all whose answer is the empty string, so
    every in-window row of the user is returned. *)
Theorem get_history_of_chat_zero_limit_spec
  (now : Z) (e : Engine) (user_id time : Z) (user : User.t) :
  user_with_id user_id e = Some user ->
  cutoff_representable now time ->
  let recent := recent_qa now e user time in
  get_history_of_chat now e user_id time 0
  = Returned (filter answer_ne_empty recent ++ filter answer_eq_empty recent,
              e) /\
  forall qa,
    In qa recent ->
    In qa (filter answer_ne_empty recent ++ filter answer_eq_empty recent).
Proof.
  intros Hu Hrep recent. split.
  - now apply get_history_of_chat_zero_limit.
  - intros qa Hin. apply in_or_app.
    destruct (answer_eq_empty qa) eqn:Hqa.
    + right. apply filter_In. auto.
    + left. apply filter_In. split; [exact Hin|].
      now rewrite answer_ne_empty_negb, Hqa.
Qed.

Lemma get_history_of_chat_zero_limit_spec_witness :
  let recent := recent_qa 100000000 window_engine sample_user 30 in
  get_history_of_chat 100000000 window_engine 1 30 0
  = Returned (filter answer_ne_empty recent ++ filter answer_eq_empty recent,
              window_engine) /\
  forall qa,
    In qa recent ->
    In qa (filter answer_ne_empty recent ++ filter answer_eq_empty recent).
Proof.
  apply (get_history_of_chat_zero_limit_spec 100000000 window_engine 1 30
           sample_user).
  - reflexivity.
  - exact sample_cutoff_representable.
Defined.

(** ** check_spam over time *)

Lemma check_spam_result (now : Z) (e : Engine) (user_id : Z) :
  result (check_spam now e user_id)
  = match user_with_id user_id e with
    | None => Returned false
    | Some user =>
        let qas := order_by_created_at_desc (turns_of e user) in
        if len qas >? 5
        then match nth_error qas 4 with
             | Some fifth_message =>
                 Returned (now - timedelta_minutes 1
                           <? QuestionAnswer.created_at fifth_message)
             | None => Raised IndexError
             end
        else Returned false
    end.
Proof.
  destruct (user_with_id user_id e) as [user|] eqn:Hu.
  - rewrite (check_spam_unfold now _ _ _ Hu). cbv zeta.
    destruct (len (order_by_created_at_desc (turns_of e user)) >? 5);
      [|reflexivity].
    now destruct (nth_error (order_by_created_at_desc (turns_of e user)) 4).
  - unfold user_with_id in Hu.
    unfold check_spam, bind, first_user_where_id. now rewrite Hu.
Qed.

(** X17.  The verdict of [check_spam] expires and does not come back by
    itself: on the same store, once it is [False] at some time it is [False]
    at every later time. *)
Theorem check_spam_expires (now later : Z) (e : Engine) (user_id : Z) :
  now <= later ->
  result (check_spam now e user_id) = Returned false ->
  result (check_spam later e user_id) = Returned false.
Proof.
  intros Hle. rewrite !check_spam_result.
  destruct (user_with_id user_id e) as [user|]; [|auto]. cbv zeta.
  destruct (len (order_by_created_at_desc (turns_of e user)) >? 5); [|auto].
  destruct (nth_error (order_by_created_at_desc (turns_of e user)) 4)
    as [fifth|]; [|auto].
  intros [= H]. f_equal. apply Z.ltb_ge in H. apply Z.ltb_ge.
  unfold timedelta_minutes in *. lia.
Qed.

Lemma check_spam_expires_witness :
  result (check_spam 200000000 spam_engine 1) = Returned false.
Proof.
  apply (check_spam_expires 110000000 200000000 spam_engine 1).
  - lia.
  - reflexivity.
Defined.

Lemma Permutation_filter_length {A} (p : A -> bool) (l l' : list A) :
  Permutation l l' ->
  List.length (filter p l) = List.length (filter p l').
Proof.
  induction 1 as [|x l l' _ IH|x y l|l l' l'' _ IH1 _ IH2]; simpl.
  - reflexivity.
  - destruct (p x); simpl; now rewrite IH.
  - destruct (p x), (p y); reflexivity.
  - now rewrite IH1.
Qed.

Lemma filter_length_bound {A} (p : A -> bool) (l : list A) :
  (List.length (filter p l) <= List.length l)%nat.
Proof.
  induction l as [|x l IH]; simpl; [lia|]. destruct (p x); simpl; lia.
Qed.

Lemma filter_all {A} (p : A -> bool) (l : list A) :
  Forall (fun x => p x = true) l -> filter p l = l.
Proof.
  induction 1 as [|x l Hx _ IH]; simpl; [reflexivity|].
  now rewrite Hx, IH.
Qed.

Lemma filter_none_forall {A} (p : A -> bool) (l : list A) :
  Forall (fun x => p x = false) l -> filter p l = [].
Proof.
  induction 1 as [|x l Hx _ IH]; simpl; [reflexivity|]. now rewrite Hx.
Qed.

Lemma StronglySorted_split {A} (R : A -> A -> Prop) (l1 l2 : list A) (a : A) :
  StronglySorted R (l1 ++ a :: l2) ->
  Forall (fun x => R x a) l1 /\ Forall (R a) l2.
Proof.
  induction l1 as [|x l1 IH]; simpl; intros H;
    inversion H as [|? ? Hs Hall]; subst.
  - split; [constructor|exact Hall].
  - destruct (IH Hs) as [H1 H2]. split; [|exact H2].
    constructor; [|exact H1].
    rewrite Forall_forall in Hall. apply Hall.
    apply in_or_app. right. now left.
Qed.

Lemma check_spam_by_counts
  (now : Z) (e : Engine) (user_id : Z) (user : User.t) :
  user_with_id user_id e = Some user ->
  exists spam,
    check_spam now e user_id = Returned (spam, e) /\
    (spam = true <->
     (5 < List.length (turns_of e user))%nat /\
     (5 <= List.length (filter (younger_than_a_minute now)
                               (turns_of e user)))%nat).
Proof.
  intros Hu. rewrite (check_spam_unfold now _ _ _ Hu). cbv zeta.
  set (qas := order_by_created_at_desc (turns_of e user)).
  pose proof (order_by_created_at_desc_perm (turns_of e user)) as Hperm.
  pose proof (order_by_created_at_desc_sorted (turns_of e user)) as Hsorted.
  fold qas in Hperm, Hsorted.
  rewrite <- (Permutation_length Hperm).
  rewrite <- (Permutation_filter_length _ _ _ Hperm).
  unfold len. destruct (Z.gtb_spec (Z.of_nat (List.length qas)) 5)
    as [Hgt|Hle].
  - destruct (nth_error qas 4) as [fifth|] eqn:Hnth.
    + eexists. split; [reflexivity|].
      apply nth_error_split in Hnth as (l1 & l2 & Hqas & Hl1).
      rewrite Hqas in Hsorted. apply StronglySorted_split in Hsorted
        as [Hbefore Hafter].
      rewrite Hqas, filter_app, !length_app. simpl filter.
      unfold younger_than_a_minute at 2.
      fold (younger_than_a_minute now fifth).
      split.
      * intros Hspam. split.
        -- rewrite Hqas, length_app in Hgt. lia.
        -- rewrite (filter_all (younger_than_a_minute now) l1).
           ++ rewrite Hspam. simpl. lia.
           ++ eapply Forall_impl; [|exact Hbefore]. intros x Hx.
              unfold younger_than_a_minute in *. apply Z.ltb_lt in Hspam.
              apply Z.ltb_lt. simpl in Hx. lia.
      * intros [_ Hcount].
        destruct (younger_than_a_minute now fifth) eqn:Hfifth;
          [reflexivity|exfalso].
        rewrite (filter_none_forall (younger_than_a_minute now) l2) in Hcount.
        -- pose proof (filter_length_bound (younger_than_a_minute now) l1).
           simpl in Hcount. lia.
        -- eapply Forall_impl; [|exact Hafter]. intros x Hx.
           unfold younger_than_a_minute in *. apply Z.ltb_ge in Hfifth.
           apply Z.ltb_ge. simpl in Hx. lia.
    + apply nth_error_None in Hnth. lia.
  - exists false. split; [reflexivity|]. split; [discriminate|].
    intros [Hmore _]. lia.
Qed.

(** X18.  [check_spam] in terms of counts: for an existing user it answers
    [True] exactly when the user has more than five turns in all and at least
    five of them were created later than a minute before [now]. *)
Theorem check_spam_counts
  (now : Z) (e : Engine) (user_id : Z) (user : User.t) :
  user_with_id user_id e = Some user ->
  (result (check_spam now e user_id) = Returned true <->
   5 < len (turns_of e user) /\
   5 <= len (filter (younger_than_a_minute now) (turns_of e user))) /\
  (result (check_spam now e user_id) <> Returned true ->
   check_spam now e user_id = Returned (false, e)).
Proof.
  intros Hu.
  destruct (check_spam_by_counts now e user_id user Hu)
    as (spam & Hcall & Hspam).
  rewrite Hcall. simpl result. unfold len. split.
  - split.
    + intros [= ->]. destruct Hspam as [H _].
      destruct (H eq_refl). lia.
    + intros [H1 H2]. f_equal. apply Hspam. lia.
  - destruct spam; [intros H; now contradiction H | reflexivity].
Qed.

Lemma check_spam_counts_witness :
  (result (check_spam 100000000 spam_engine 1) = Returned true <->
   5 < len (turns_of spam_engine sample_user) /\
   5 <= len (filter (younger_than_a_minute 100000000)
                    (turns_of spam_engine sample_user))) /\
  (result (check_spam 100000000 spam_engine 1) <> Returned true ->
   check_spam 100000000 spam_engine 1 = Returned (false, spam_engine)).
Proof.
  apply (check_spam_counts 100000000 spam_engine 1 sample_user).
  reflexivity.
Defined.

(** ** filter_chat_history on its own result *)

Lemma filter_chat_history_eq (history : list QuestionAnswer.t) :
  filter_chat_history history
  = match filter answer_ne_empty (trimmed_history history) with
    | [] =>
        Returned ([], filter answer_eq_empty (trimmed_history history))
    | p :: ps =>
        Returned
          (p :: ps,
           filter (fun qa =>
                     fold_left Z.max (map QuestionAnswer.created_at ps)
                               (QuestionAnswer.created_at p)
                     <? QuestionAnswer.created_at qa)
                  (filter answer_eq_empty (trimmed_history history)))
    end.
Proof.
  destruct history as [|h history]; [reflexivity|].
  unfold filter_chat_history. cbv zeta.
  now destruct (filter answer_ne_empty (trimmed_history (h :: history))).
Qed.

Lemma Forall_filter_true {A} (p : A -> bool) (l : list A) :
  Forall (fun x => p x = true) (filter p l).
Proof.
  rewrite Forall_forall. intros x Hx. now apply filter_In in Hx.
Qed.

Lemma no_stop_point_incl (l l' : list QuestionAnswer.t) :
  incl l' l -> no_stop_point l -> no_stop_point l'.
Proof.
  unfold no_stop_point. rewrite !Forall_forall. intros Hincl H x Hx.
  apply H. now apply Hincl.
Qed.

(** X19.  [filter_chat_history] is a projection: it always returns, and
    applied again to its own result, pairs followed by unanswered turns, it
    returns that result unchanged. *)
Theorem filter_chat_history_idempotent (history : list QuestionAnswer.t) :
  exists pairs unanswered,
    filter_chat_history history = Returned (pairs, unanswered) /\
    filter_chat_history (pairs ++ unanswered) = Returned (pairs, unanswered).
Proof.
  rewrite filter_chat_history_eq.
  set (T := trimmed_history history).
  assert (no_stop_point T) as HT
      by apply (trimmed_history_after_last_stop_point history).
  assert (forall l, incl l (filter answer_eq_empty T) ->
                    filter answer_ne_empty l = [] /\
                    filter answer_eq_empty l = l) as Hopen.
  { intros l Hl.
    assert (Forall (fun qa => answer_eq_empty qa = true) l) as Hall.
    { rewrite Forall_forall. intros x Hx. apply Hl in Hx.
      now apply filter_In in Hx. }
    split; [|now apply filter_all].
    apply filter_chat_history_no_pairs. now rewrite Forall_forall in Hall. }
  destruct (filter answer_ne_empty T) as [|p ps] eqn:HP.
  - exists [], (filter answer_eq_empty T). split; [reflexivity|].
    simpl app. rewrite filter_chat_history_eq.
    rewrite trimmed_history_no_stop.
    + destruct (Hopen _ (incl_refl _)) as [-> ->]. reflexivity.
    + eapply no_stop_point_incl; [|exact HT].
      intros x Hx. now apply filter_In in Hx.
  - set (m := fold_left Z.max (map QuestionAnswer.created_at ps)
                        (QuestionAnswer.created_at p)).
    set (U := filter (fun qa => m <? QuestionAnswer.created_at qa)
                     (filter answer_eq_empty T)).
    exists (p :: ps), U. split; [reflexivity|].
    assert (incl U (filter answer_eq_empty T)) as HU
        by (intros x Hx; now apply filter_In in Hx).
    assert (Forall (fun qa => answer_ne_empty qa = true) (p :: ps)) as HPne
        by (rewrite <- HP; apply Forall_filter_true).
    rewrite filter_chat_history_eq. rewrite trimmed_history_no_stop.
    + rewrite !filter_app. destruct (Hopen _ HU) as [-> ->].
      rewrite (filter_all _ _ HPne), app_nil_r.
      rewrite (filter_none_forall answer_eq_empty (p :: ps)).
      * simpl app. fold m. f_equal. f_equal. unfold U.
        apply filter_all.
        rewrite Forall_forall. intros x Hx. now apply filter_In in Hx.
      * eapply Forall_impl; [|exact HPne]. intros x Hx. cbv beta in Hx.
        rewrite answer_ne_empty_negb in Hx. now destruct (answer_eq_empty x).
    + eapply no_stop_point_incl; [|exact HT].
      intros x Hx. apply in_app_or in Hx as [Hx|Hx].
      * rewrite <- HP in Hx. now apply filter_In in Hx.
      * apply HU in Hx. now apply filter_In in Hx.
Qed.

(** ** Open questions survive the closing of a conversation *)

Lemma map_fixed {A} (g : A -> A) (l : list A) :
  (forall x, In x l -> g x = x) -> map g l = l.
Proof.
  intros H. induction l as [|x l IH]; simpl; [reflexivity|].
  rewrite (H x (or_introl eq_refl)). f_equal.
  apply IH. intros y Hy. apply H. now right.
Qed.

(** X20.  Closing on an answered turn keeps the open questions asked before
    it.  In a well-formed store, let the user's latest turn be later than all
    the user's other turns, lie in the window (whose cutoff [now - time]
    minutes can be computed) and have an answer other than the empty string,
    and let none of the user's other turns carry a stop point.  After [set_stop_point(.., True)], for every [limit_pairs] that is
    not negative, [filter_chat_history] of the history has no pair, and its
    unanswered turns are all the in-window turns of the user with an empty
    answer, each of them older than the closing turn. *)
Theorem set_stop_point_keeps_open_questions
  (now : Z) (e : Engine) (user_id : Z) (user : User.t) (time limit_pairs : Z)
  (before after : list QuestionAnswer.t) (latest : QuestionAnswer.t) :
  well_formed e ->
  user_with_id user_id e = Some user ->
  question_answers e = before ++ latest :: after ->
  QuestionAnswer.user_id latest = user_id ->
  Forall (fun qa =>
            QuestionAnswer.user_id qa = user_id ->
            QuestionAnswer.created_at qa < QuestionAnswer.created_at latest /\
            QuestionAnswer.stop_point qa = false)
         (before ++ after) ->
  answer_ne_empty latest = true ->
  cutoff_representable now time ->
  now - timedelta_minutes time <= QuestionAnswer.created_at latest ->
  0 <= limit_pairs ->
  exists e' h,
    set_stop_point e user_id true = Returned (tt, e') /\
    get_history_of_chat now e' user_id time limit_pairs = Returned (h, e') /\
    filter_chat_history h
    = Returned ([], filter answer_eq_empty (recent_qa now e user time)) /\
    Forall (fun qa =>
              QuestionAnswer.created_at qa < QuestionAnswer.created_at latest)
           (filter answer_eq_empty (recent_qa now e user time)).
Proof.
  intros (_ & _ & _ & Hnodup & Hbound) Hu Hqas Huser Hothers
         Hanswered Hrep Hwin Hlimit.
  assert (User.id user = user_id) as Huid.
  { unfold user_with_id in Hu. apply find_some in Hu as [_ Hu].
    now apply Z.eqb_eq in Hu. }
  assert (In latest (question_answers e)) as Hlatest_in
      by (rewrite Hqas; apply in_or_app; right; now left).
  assert (exists i, QuestionAnswer.id latest = Some i) as [i Hid].
  { rewrite Forall_forall in Hbound.
    destruct (Hbound _ Hlatest_in) as (i & Hi & _). now exists i. }
  assert (Forall (fun qa =>
                    QuestionAnswer.user_id qa = user_id ->
                    QuestionAnswer.created_at qa
                    < QuestionAnswer.created_at latest)
                 (before ++ after)) as Hall.
  { eapply Forall_impl; [|exact Hothers]. intros qa H Hq. now apply H. }
  destruct (set_stop_point_latest e user_id true before after latest i
              Hqas Huser Hid Hall)
    as (e' & g & Hcall & Husers & Hqas' & Hg & Hstop & Hfix).
  assert (user_with_id user_id e' = Some user) as Hu'
      by (unfold user_with_id; now rewrite Husers).
  exists e'. rewrite (get_history_of_chat_unfold _ _ _ _ _ _ Hu' Hrep).
  rewrite (recent_qa_map now e e' user time g Hqas' Hg).
  assert (QuestionAnswer.user_id latest = User.id user) as Huser'
      by congruence.
  assert (Forall (fun qa =>
                    QuestionAnswer.user_id qa = User.id user ->
                    QuestionAnswer.created_at qa
                    < QuestionAnswer.created_at latest)
                 (before ++ after)) as Hall' by (now rewrite Huid).
  destruct (recent_qa_latest now e user time before after latest
              Hqas Huser' Hall') as [Hnil|(older & Hrecent & Holder)].
  { exfalso. unfold recent_qa in Hnil.
    assert (In latest
              (order_by_created_at_asc
                 (filter (fun qa =>
                            (QuestionAnswer.user_id qa =? User.id user)
                            && (now - timedelta_minutes time
                                <=? QuestionAnswer.created_at qa))
                         (question_answers e)))) as Hin.
    { eapply Permutation_in;
        [symmetry; apply order_by_created_at_asc_perm|].
      apply filter_In. split; [exact Hlatest_in|].
      rewrite Huser', Z.eqb_refl. simpl. now apply Z.leb_le. }
    rewrite Hnil in Hin. destruct Hin. }
  assert (forall qa, In qa older ->
                     In qa (question_answers e) /\
                     QuestionAnswer.user_id qa = user_id) as Holder_in.
  { intros qa Hqa.
    assert (In qa (recent_qa now e user time)) as Hin
        by (rewrite Hrecent; apply in_or_app; now left).
    unfold recent_qa in Hin.
    apply (Permutation_in _ (order_by_created_at_asc_perm _)) in Hin.
    apply filter_In in Hin as [Hin Hcond].
    apply andb_true_iff in Hcond as [Hq _]. apply Z.eqb_eq in Hq.
    split; [exact Hin|congruence]. }
  assert (forall qa, In qa older -> In qa (before ++ after)) as Holder_others.
  { intros qa Hqa. destruct (Holder_in _ Hqa) as [Hin _].
    rewrite Hqas in Hin. apply in_app_or in Hin as [Hin|[->|Hin]].
    - apply in_or_app. now left.
    - rewrite Forall_forall in Holder. specialize (Holder _ Hqa). lia.
    - apply in_or_app. now right. }
  assert (map g older = older) as Hsame.
  { apply map_fixed. intros qa Hqa. apply Hfix. intros Hsameid.
    destruct (Holder_in _ Hqa) as [Hin _].
    assert (qa = latest) by (eapply NoDup_map_eq; eassumption).
    subst qa. rewrite Forall_forall in Holder. specialize (Holder _ Hqa).
    lia. }
  rewrite Hrecent, map_app, Hsame, !filter_app. simpl map. cbn [filter].
  assert (answer_eq_empty latest = false) as Hlatest.
  { rewrite answer_ne_empty_negb in Hanswered.
    now destruct (answer_eq_empty latest). }
  assert (answer_eq_empty (g latest) = false) as ->.
  { unfold answer_eq_empty in *. now destruct (Hg latest) as (_ & _ & ->). }
  assert (answer_ne_empty (g latest) = true) as ->.
  { unfold answer_ne_empty in *. now destruct (Hg latest) as (_ & _ & ->). }
  rewrite Hlatest, !app_nil_r.
  destruct (cap_keeps_last limit_pairs
              (filter answer_ne_empty older) (g latest) Hlimit)
    as [kept ->].
  rewrite <- app_assoc. simpl app.
  eexists. split; [exact Hcall|]. split; [reflexivity|].
  rewrite filter_chat_history_eq.
  assert (no_stop_point (filter answer_eq_empty older)) as Hnostop.
  { unfold no_stop_point. rewrite Forall_forall in *. intros qa Hqa.
    apply filter_In in Hqa as [Hqa _].
    destruct (Holder_in _ Hqa) as [_ Hq].
    now apply (Hothers _ (Holder_others _ Hqa) Hq). }
  rewrite (trimmed_history_split _ _ _ Hstop Hnostop).
  rewrite (filter_chat_history_no_pairs (filter answer_eq_empty older))
    by (intros qa Hqa; now apply filter_In in Hqa).
  rewrite (filter_all answer_eq_empty (filter answer_eq_empty older))
    by apply Forall_filter_true.
  split; [reflexivity|].
  rewrite Forall_forall in *. intros qa Hqa.
  apply filter_In in Hqa as [Hqa _]. now apply Holder.
Qed.

Lemma open_then_answered_engine_well_formed :
  well_formed open_then_answered_engine.
Proof.
  unfold well_formed, open_then_answered_engine. simpl.
  repeat split.
  - constructor; [simpl; tauto|constructor].
  - repeat constructor. simpl. lia.
  - constructor; [simpl; tauto|constructor].
  - constructor; [simpl; intros [H|[]]; discriminate|].
    constructor; [simpl; tauto|constructor].
  - repeat constructor; eexists; (split; [reflexivity|lia]).
Qed.

Lemma set_stop_point_keeps_open_questions_witness :
  exists e' h,
    set_stop_point open_then_answered_engine 1 true = Returned (tt, e') /\
    get_history_of_chat 100000000 e' 1 30 5 = Returned (h, e') /\
    filter_chat_history h
    = Returned ([], filter answer_eq_empty
                           (recent_qa 100000000 open_then_answered_engine
                                      sample_user 30)) /\
    Forall (fun qa =>
              QuestionAnswer.created_at qa
              < QuestionAnswer.created_at (answered_turn 2 20000000))
           (filter answer_eq_empty
                   (recent_qa 100000000 open_then_answered_engine
                              sample_user 30)).
Proof.
  apply (set_stop_point_keeps_open_questions 100000000
           open_then_answered_engine 1 sample_user 30 5
           [open_turn 1 10000000] [] (answered_turn 2 20000000)).
  - exact open_then_answered_engine_well_formed.
  - reflexivity.
  - reflexivity.
  - reflexivity.
  - repeat constructor; simpl; lia.
  - reflexivity.
  - exact sample_cutoff_representable.
  - unfold timedelta_minutes. simpl. lia.
  - lia.
Defined.

(** The open question is indeed returned there. *)
Example open_question_after_closing :
  filter answer_eq_empty
         (recent_qa 100000000 open_then_answered_engine sample_user 30)
  = [open_turn 1 10000000].
Proof. reflexivity. Qed.

(** ** Further consequences for callers *)



(** X22.  One more turn after five quick ones is spam: when an existing user
    has at least five turns created later than a minute before [now], then
    after [add_question_answer] records a further turn for the user,
    [check_spam] at [now] answers [True]. *)
Theorem check_spam_after_sixth_turn
  (now : Z) (e : Engine) (question answer : string)
  (confluence_url : option string) (user_id : Z) (user : User.t) :
  user_with_id user_id e = Some user ->
  (5 <= List.length (filter (younger_than_a_minute now) (turns_of e user)))%nat ->
  exists i e',
    add_question_answer e question answer confluence_url user_id
    = Returned (i, e') /\
    check_spam now e' user_id = Returned (true, e').
Proof.
  intros Hu Hcount.
  assert (User.id user = user_id) as Hid.
  { unfold user_with_id in Hu. apply find_some in Hu as [_ Hu].
    now apply Z.eqb_eq in Hu. }
  set (qa := QuestionAnswer.mk
               (Some (question_answer_seq e + 1))
               question (Some answer) confluence_url None user_id
               (server_now e) None false).
  set (e' := mkEngine (users e) (question_answers e ++ [qa]) (user_seq e)
                      (question_answer_seq e + 1) (server_now e)).
  exists (question_answer_seq e + 1), e'.
  split; [now apply add_question_answer_existing_user with (user := user)|].
  assert (user_with_id user_id e' = Some user) as Hu' by exact Hu.
  destruct (check_spam_by_counts now e' user_id user Hu')
    as (spam & Hcall & Hspam).
  rewrite Hcall. do 2 f_equal. apply Hspam.
  assert (turns_of e' user = turns_of e user ++ [qa]) as ->.
  { unfold turns_of, e'. simpl question_answers. rewrite filter_app.
    simpl. now rewrite Hid, Z.eqb_refl. }
  pose proof (filter_length_bound (younger_than_a_minute now)
                                  (turns_of e user)).
  rewrite filter_app, !length_app. simpl List.length at 2. lia.
Qed.

Lemma check_spam_after_sixth_turn_witness :
  exists i e',
    add_question_answer spam_engine "again" "answer" None 1
    = Returned (i, e') /\
    check_spam 100000000 e' 1 = Returned (true, e').
Proof.
  apply (check_spam_after_sixth_turn 100000000 spam_engine "again" "answer"
           None 1 sample_user).
  - reflexivity.
  - simpl. lia.
Defined.
